(** * Server Monitor API: a shallow embedding of [server-monitor-api/main.py]

    Part I gives the definitions, following the Python module top to bottom:
    - [PyStr]: Python text ([str]) as sequences of code points, with the
      string methods the module calls;
    - [Auth]: [_require_auth];
    - [PyFloat]: binary64 values ([float]) on top of [SpecFloat];
    - [Human]: [_bytes_to_human];
    - the pydantic models, the operating-system interface ([OS]), the
      monad of the handler ([Monad]) and the handler of [/api/metrics]
      ([Api]);
    - [Spec]: the vocabulary the properties are stated in;
    - [Host]: a host with fixed answers, for concrete runs.
    Part II proves the properties of the specification. *)

From Stdlib Require Import ZArith NArith Lia Ascii String List Bool.
From Stdlib Require Import Floats.SpecFloat.
From Stdlib Require Import Numbers.DecimalString Numbers.DecimalN.
From stdpp Require Import base decidable list gmap.

(** ** Python text *)

(** A Python [str] is a sequence of Unicode code points. *)
Abbreviation str := (list N).

Module PyStr.

(** A literal of the source, given as an ASCII string. *)
Definition lit (s : string) : str := N_of_ascii <$> list_ascii_of_string s.

(** [Py_UNICODE_ISSPACE]: the code points [str.strip()] removes. *)
Definition isspace (c : N) : bool :=
  ((9 <=? c) && (c <=? 13) || (28 <=? c) && (c <=? 32)
   || (c =? 133) || (c =? 160) || (c =? 5760)
   || (8192 <=? c) && (c <=? 8202)
   || (c =? 8232) || (c =? 8233) || (c =? 8239) || (c =? 8287)
   || (c =? 12288))%N.

Fixpoint lstrip (s : str) : str :=
  match s with
  | c :: s' => if isspace c then lstrip s' else s
  | [] => []
  end.

Definition rstrip (s : str) : str := rev (lstrip (rev s)).

(** [s.strip()] *)
Definition strip (s : str) : str := rstrip (lstrip s).

(** [s.startswith(p)] *)
Fixpoint startswith (s p : str) {struct p} : bool :=
  match p with
  | [] => true
  | c :: p' =>
      match s with
      | d :: s' => (c =? d)%N && startswith s' p'
      | [] => false
      end
  end.

(** [s.removeprefix(p)] *)
Definition removeprefix (s p : str) : str :=
  if startswith s p then drop (length p) s else s.

(** Truthiness of an [Optional[str]]: [None] and [""] are falsy. *)
Definition truthy (o : option str) : bool :=
  match o with
  | Some (_ :: _) => true
  | _ => false
  end.

End PyStr.

(** ** Exceptions and outcomes *)

(** The exception classes the module distinguishes.  Every class here is a
  subclass of [Exception]; [PermissionError] is the only one a handler
  names. *)
Inductive exn : Type :=
| PermissionError (msg : str)
| OverflowError (msg : str)
| ValueError (msg : str)
| OtherException (msg : str).

(** [str(e)] *)
Definition exn_str (e : exn) : str :=
  match e with
  | PermissionError m | OverflowError m | ValueError m | OtherException m => m
  end.

Definition is_PermissionError (e : exn) : bool :=
  match e with PermissionError _ => true | _ => false end.

Inductive outcome (A : Type) : Type :=
| Return (a : A)
| Raise (e : exn).
Arguments Return {A} a.
Arguments Raise {A} e.

(** ** [_require_auth] *)

Module Auth.
Import PyStr.

Definition Bearer : str := lit "Bearer ".

(** [MONITOR_TOKEN] is read once from the environment ([os.getenv]):
    it is [None] when the variable is unset. *)
Definition _require_auth (MONITOR_TOKEN authorization : option str)
  : outcome unit :=
  if negb (truthy MONITOR_TOKEN) then Return tt
  else
    match authorization with
    | Some a =>
        if negb (truthy authorization) || negb (startswith a Bearer)
        then Raise (PermissionError (lit "Missing Authorization Bearer token"))
        else
          let token := strip (removeprefix a Bearer) in
          if negb (bool_decide (Some token = MONITOR_TOKEN))
          then Raise (PermissionError (lit "Invalid token"))
          else Return tt
    | None => Raise (PermissionError (lit "Missing Authorization Bearer token"))
    end.

End Auth.

(** ** Python floats *)

(** A Python [float] is an IEEE 754 binary64 value; the arithmetic is the
    one of [SpecFloat] at precision 53 and maximal exponent 1024. *)
Abbreviation float := spec_float.

Module PyFloat.
Import PyStr.

Definition prec : Z := 53.
Definition emax : Z := 1024.

(** [a / b] rounded to the nearest integer, ties to the even one
    ([0 <= a], [0 < b]). *)
Definition rne_div (a b : Z) : Z :=
  let q := (a / b)%Z in
  let r := (a mod b)%Z in
  if (b <? 2 * r)%Z || ((2 * r =? b)%Z && Z.odd q) then (q + 1)%Z else q.

(** [float(n)] for an [int]: the correctly rounded binary64 value,
    nearest with ties to even ([PyLong_AsDouble]); an [int] whose
    rounding leaves the binary64 range raises. *)
Definition float_of_int (n : Z) : outcome float :=
  match binary_normalize prec emax n 0 false with
  | S754_infinity _ =>
      Raise (OverflowError (lit "int too large to convert to float"))
  | x => Return x
  end.

(** [x / y] and [x - y] on floats ([y] is never zero where the module
    divides). *)
Definition truediv (x y : float) : float := SFdiv prec emax x y.
Definition sub (x y : float) : float := SFsub prec emax x y.

(** [x >= y] *)
Definition ge (x y : float) : bool := SFleb y x.

(** [int(x)]: truncation towards zero. *)
Definition int_of_float (x : float) : outcome Z :=
  match x with
  | S754_zero _ => Return 0%Z
  | S754_finite s m e =>
      Return (cond_Zopp s
                (if (0 <=? e)%Z then Z.pos m * 2 ^ e else Z.pos m / 2 ^ (- e)))%Z
  | S754_infinity _ =>
      Raise (OverflowError (lit "cannot convert float infinity to integer"))
  | S754_nan => Raise (ValueError (lit "cannot convert float NaN to integer"))
  end.

(** Decimal digits of a natural number, most significant first. *)
Fixpoint uint_str (d : Decimal.uint) : str :=
  match d with
  | Decimal.Nil => []
  | Decimal.D0 d => 48%N :: uint_str d
  | Decimal.D1 d => 49%N :: uint_str d
  | Decimal.D2 d => 50%N :: uint_str d
  | Decimal.D3 d => 51%N :: uint_str d
  | Decimal.D4 d => 52%N :: uint_str d
  | Decimal.D5 d => 53%N :: uint_str d
  | Decimal.D6 d => 54%N :: uint_str d
  | Decimal.D7 d => 55%N :: uint_str d
  | Decimal.D8 d => 56%N :: uint_str d
  | Decimal.D9 d => 57%N :: uint_str d
  end.

Definition decimal (n : Z) : str := uint_str (N.to_uint (Z.to_N n)).

(** The magnitude of [m * 2^e] in tenths, rounded to nearest, ties to
    even: the digits [%.1f] prints are those of the exact binary value. *)
Definition tenths (m : positive) (e : Z) : Z :=
  if (0 <=? e)%Z then (10 * Z.pos m * 2 ^ e)%Z
  else rne_div (10 * Z.pos m) (2 ^ (- e)).

(** A sign and a magnitude in tenths, printed with one fractional digit. *)
Definition fixed1 (s : bool) (t : Z) : str :=
  (if s then lit "-" else []) ++ decimal (t / 10) ++ lit "." ++ decimal (t mod 10).

(** [f"{x:.1f}"] *)
Definition format_1f (x : float) : str :=
  match x with
  | S754_zero s => fixed1 s 0
  | S754_finite s m e => fixed1 s (tenths m e)
  | S754_infinity s => if s then lit "-inf" else lit "inf"
  | S754_nan => lit "nan"
  end.

(** The literals [1024] (as a float operand), [0.0] and [0.2]. *)
Definition f1024 : float := S754_finite false (2 ^ 52) (-42).
Definition f0 : float := S754_zero false.
Definition f0_2 : float := S754_finite false 7205759403792794 (-55).

End PyFloat.

(** ** [_bytes_to_human] *)

Module Human.
Import PyStr PyFloat.

Definition units : list str := lit <$> ["B"; "KB"; "MB"; "GB"; "TB"; "PB"]%string.

(** A [while] loop: [fuel] bounds the number of iterations, and [None]
    means the bound was reached with the condition still true. *)
Fixpoint while {S : Type} (fuel : nat) (cond : S -> bool) (body : S -> S)
  (s : S) : option S :=
  if cond s then
    match fuel with
    | O => None
    | Datatypes.S fuel' => while fuel' cond body (body s)
    end
  else Some s.

(** The loop of [_bytes_to_human] on the state [(val, i)]. *)
Definition loop_cond (st : float * nat) : bool :=
  ge st.1 f1024 && (st.2 <? length units - 1)%nat.

Definition loop_body (st : float * nat) : float * nat :=
  (truediv st.1 f1024, (st.2 + 1)%nat).

(** The state [(val, i)] at the [return]. *)
Definition scaled (fuel : nat) (n : Z) : option (outcome (float * nat)) :=
  match float_of_int n with
  | Raise e => Some (Raise e)
  | Return val => Return <$> while fuel loop_cond loop_body (val, O)
  end.

(** [units[i]] *)
Definition unit_of (i : nat) : str := default [] (units !! i).

Definition _bytes_to_human (fuel : nat) (n : Z) : option (outcome str) :=
  match scaled fuel n with
  | Some (Return (val, i)) => Some (Return (format_1f val ++ unit_of i))
  | Some (Raise e) => Some (Raise e)
  | None => None
  end.

End Human.

(** ** psutil results and the pydantic models *)

Module psutil.
Record svmem : Type :=
  { svmem_total : Z; svmem_available : Z; svmem_percent : float; svmem_used : Z }.
Record sdiskpart : Type :=
  { device : str; mountpoint : str; fstype : str; opts : str }.
Record sdiskusage : Type :=
  { sdiskusage_total : Z; sdiskusage_used : Z; sdiskusage_free : Z;
    sdiskusage_percent : float }.
Record snetio : Type := { snetio_bytes_sent : Z; snetio_bytes_recv : Z }.
End psutil.
Import psutil.

(** [time.struct_time], the fields the timestamp uses. *)
Record struct_time : Type :=
  { tm_year : Z; tm_mon : Z; tm_mday : Z; tm_hour : Z; tm_min : Z; tm_sec : Z }.

Module DiskUsageItem.
Record t : Type :=
  { mount : str; total_bytes : Z; used_bytes : Z; free_bytes : Z; percent : float }.
End DiskUsageItem.

Module NetIO.
Record t : Type := { bytes_sent : Z; bytes_recv : Z }.
End NetIO.

Module Metrics.
Record t : Type :=
  { cpu_percent : float;
    load_avg : list float;
    mem_percent : float;
    mem_total_bytes : Z;
    mem_used_bytes : Z;
    mem_available_bytes : Z;
    disk : list DiskUsageItem.t;
    net_io : NetIO.t;
    uptime_seconds : Z;
    hostname : str }.
End Metrics.

Module ApiResponse.
Record t : Type :=
  { ok : bool; ts : str; metrics : option Metrics.t; error : option str }.
End ApiResponse.

(** The [Response] object FastAPI passes in: the handler only writes its
    [status_code]; [None] is the framework default (200). *)
Record Response : Type := { status_code : option Z }.

(** ** The operating system *)

(** A computation reads and changes the state of the world, and returns
    or raises. *)
Definition M (World A : Type) : Type := World -> outcome A * World.

(** The queries the handler issues.  Each may answer differently every
    time it is asked, and each may raise.  [time.gmtime()] is taken not
    to raise: the handlers of [metrics] call it outside any [try]. *)
Record OS (World : Type) : Type :=
  { psutil_cpu_percent : float -> M World float;
    os_getloadavg : M World (float * float * float);
    psutil_virtual_memory : M World svmem;
    psutil_disk_partitions : M World (list sdiskpart);
    psutil_disk_usage : str -> M World sdiskusage;
    psutil_net_io_counters : M World snetio;
    time_time : M World float;
    psutil_boot_time : M World float;
    socket_gethostname : M World str;
    time_gmtime : World -> struct_time * World }.
Arguments psutil_cpu_percent {World} _ _ _.
Arguments os_getloadavg {World} _ _.
Arguments psutil_virtual_memory {World} _ _.
Arguments psutil_disk_partitions {World} _ _.
Arguments psutil_disk_usage {World} _ _ _.
Arguments psutil_net_io_counters {World} _ _.
Arguments time_time {World} _ _.
Arguments psutil_boot_time {World} _ _.
Arguments socket_gethostname {World} _ _.
Arguments time_gmtime {World} _ _.

Module Monad.
Section Ops.
Context {World : Type}.

Definition ret {A : Type} (a : A) : M World A := fun w => (Return a, w).

Definition raise {A : Type} (e : exn) : M World A := fun w => (Raise e, w).

Definition bind {A B : Type} (c : M World A) (k : A -> M World B) : M World B :=
  fun w =>
    match c w with
    | (Return a, w') => k a w'
    | (Raise e, w') => (Raise e, w')
    end.

(** A pure step that may raise. *)
Definition lift {A : Type} (o : outcome A) : M World A := fun w => (o, w).

(** [try: c] with the outcome handed to the [except] clauses. *)
Definition attempt {A : Type} (c : M World A) : M World (outcome A) :=
  fun w => let '(o, w') := c w in (Return o, w').

(** [for x in l: s = body x s] *)
Fixpoint for_each {A S : Type} (l : list A) (body : A -> S -> M World S)
  (s : S) : M World S :=
  match l with
  | [] => ret s
  | x :: l' => bind (body x s) (for_each l' body)
  end.

End Ops.
End Monad.

Declare Scope py_scope.
Delimit Scope py_scope with py.
Notation "x <- c ;; k" := (Monad.bind c (fun x => k))
  (at level 100, c at next level, right associativity) : py_scope.
Notation "c ;;; k" := (Monad.bind c (fun _ => k))
  (at level 100, right associativity) : py_scope.

(** ** The handler of [/api/metrics] *)

Module Api.
Import PyStr PyFloat Monad.
Local Open Scope py_scope.

(** A number printed in at least two digits, as [%m %d %H %M %S] do. *)
Definition pad2 (n : Z) : str :=
  if (n <? 10)%Z then 48%N :: decimal n else decimal n.

(** One conversion of [time.strftime]. *)
Definition directive (c : N) (tm : struct_time) : str :=
  if (c =? 89)%N then decimal (tm_year tm)          (* %Y *)
  else if (c =? 109)%N then pad2 (tm_mon tm)        (* %m *)
  else if (c =? 100)%N then pad2 (tm_mday tm)       (* %d *)
  else if (c =? 72)%N then pad2 (tm_hour tm)        (* %H *)
  else if (c =? 77)%N then pad2 (tm_min tm)         (* %M *)
  else if (c =? 83)%N then pad2 (tm_sec tm)         (* %S *)
  else [37%N; c].

(** [time.strftime(fmt, tm)] for the conversions above; every other
    character is copied. *)
Fixpoint strftime (fmt : str) (tm : struct_time) : str :=
  match fmt with
  | [] => []
  | c :: fmt' =>
      if (c =? 37)%N then
        match fmt' with
        | d :: fmt'' => directive d tm ++ strftime fmt'' tm
        | [] => [c]
        end
      else c :: strftime fmt' tm
  end.

Definition ts_format : str := lit "%Y-%m-%dT%H:%M:%SZ".

(** [l[i]] *)
Definition getitem {A : Type} (l : list A) (i : nat) : outcome A :=
  match l !! i with
  | Some x => Return x
  | None => Raise (OtherException (lit "list index out of range"))
  end.

Definition pseudo_fstypes : list str :=
  lit <$> ["tmpfs"; "devtmpfs"; "squashfs"]%string.

Definition DiskUsageItem_of (m : str) (du : sdiskusage) : DiskUsageItem.t :=
  {| DiskUsageItem.mount := m;
     DiskUsageItem.total_bytes := sdiskusage_total du;
     DiskUsageItem.used_bytes := sdiskusage_used du;
     DiskUsageItem.free_bytes := sdiskusage_free du;
     DiskUsageItem.percent := sdiskusage_percent du |}.

(** A value of a [Dict[str, Any]]. *)
Inductive any : Type :=
| AnyBool (b : bool)
| AnyStr (s : str).

Section Handler.
Context {World : Type} (os : OS World).

(** Lines 100-103: the load average, or zeros when the query raises. *)
Definition load_average : M World (list float) :=
  r <- attempt (os_getloadavg os) ;;
  match r with
  | Return (a, b, c) => ret [a; b; c]
  | Raise _ => ret [f0; f0; f0]
  end.

(** Lines 112-134: the body of the loop over the partitions, on the
    state [(seen_mounts, disk_items)]. *)
Definition disk_step (part : sdiskpart)
  (st : gset str * list DiskUsageItem.t) : M World (gset str * list DiskUsageItem.t) :=
  let '(seen_mounts, disk_items) := st in
  let m := mountpoint part in
  if decide (m ∈ seen_mounts) then ret (seen_mounts, disk_items)
  else
    let seen_mounts := seen_mounts ∪ {[m]} in
    if decide (fstype part ∈ pseudo_fstypes) then ret (seen_mounts, disk_items)
    else
      r <- attempt (psutil_disk_usage os m) ;;
      match r with
      | Raise (PermissionError _) => ret (seen_mounts, disk_items)
      | Raise e => raise e
      | Return du => ret (seen_mounts, disk_items ++ [DiskUsageItem_of m du])
      end.

(** Lines 108-134. *)
Definition disk_loop (parts : list sdiskpart) : M World (list DiskUsageItem.t) :=
  st <- for_each parts disk_step (∅, []) ;;
  ret st.2.

(** Lines 137-147. *)
Definition disk_fallback (disk_items : list DiskUsageItem.t)
  : M World (list DiskUsageItem.t) :=
  match disk_items with
  | [] =>
      du <- psutil_disk_usage os (lit "/") ;;
      ret (disk_items ++ [DiskUsageItem_of (lit "/") du])
  | _ :: _ => ret disk_items
  end.

(** The timestamp every response carries. *)
Definition timestamp : M World str :=
  fun w => let '(tm, w') := time_gmtime os w in (Return (strftime ts_format tm), w').

(** Lines 86-88: [health()], a dictionary in insertion order. *)
Definition health : World -> list (str * any) * World :=
  fun w =>
    let '(tm, w') := time_gmtime os w in
    ([(lit "ok", AnyBool true); (lit "ts", AnyStr (strftime ts_format tm))], w').

(** Lines 94-172: the [try] block. *)
Definition metrics_try (MONITOR_TOKEN authorization : option str)
  : M World ApiResponse.t :=
  lift (Auth._require_auth MONITOR_TOKEN authorization) ;;;
  cpu_percent <- psutil_cpu_percent os f0_2 ;;
  load_avg <- load_average ;;
  vm <- psutil_virtual_memory os ;;
  parts <- psutil_disk_partitions os ;;
  disk_items <- disk_loop parts ;;
  disk_items <- disk_fallback disk_items ;;
  net <- psutil_net_io_counters os ;;
  let net_io :=
    {| NetIO.bytes_sent := snetio_bytes_sent net;
       NetIO.bytes_recv := snetio_bytes_recv net |} in
  now <- time_time os ;;
  boot <- psutil_boot_time os ;;
  uptime_seconds <- lift (int_of_float (sub now boot)) ;;
  hostname <- socket_gethostname os ;;
  l0 <- lift (getitem load_avg 0) ;;
  l1 <- lift (getitem load_avg 1) ;;
  l2 <- lift (getitem load_avg 2) ;;
  let m :=
    {| Metrics.cpu_percent := cpu_percent;
       Metrics.load_avg := [l0; l1; l2];
       Metrics.mem_percent := svmem_percent vm;
       Metrics.mem_total_bytes := svmem_total vm;
       Metrics.mem_used_bytes := svmem_used vm;
       Metrics.mem_available_bytes := svmem_available vm;
       Metrics.disk := disk_items;
       Metrics.net_io := net_io;
       Metrics.uptime_seconds := uptime_seconds;
       Metrics.hostname := hostname |} in
  ts <- timestamp ;;
  ret {| ApiResponse.ok := true; ApiResponse.ts := ts;
         ApiResponse.metrics := Some m; ApiResponse.error := None |}.

(** The response of an [except] clause. *)
Definition failure (code : Z) (e : exn) : M World (ApiResponse.t * Response) :=
  ts <- timestamp ;;
  ret ({| ApiResponse.ok := false; ApiResponse.ts := ts;
          ApiResponse.metrics := None; ApiResponse.error := Some (exn_str e) |},
       {| status_code := Some code |}).

(** [metrics(response, authorization)]: the [try] block and its two
    [except] clauses, in the order of the source. *)
Definition metrics (MONITOR_TOKEN : option str) (response : Response)
  (authorization : option str) : M World (ApiResponse.t * Response) :=
  r <- attempt (metrics_try MONITOR_TOKEN authorization) ;;
  match r with
  | Return a => ret (a, response)
  | Raise (PermissionError _ as e) => failure 401 e
  | Raise e => failure 503 e
  end.

End Handler.
End Api.

(** ** Vocabulary of the specification *)

Module Spec.
Import PyStr PyFloat Api.

(** Partitions whose filesystem type is not a pseudo one. *)
Definition real_fs (p : sdiskpart) : Prop := fstype p ∉ pseudo_fstypes.

#[global] Instance real_fs_dec (p : sdiskpart) : Decision (real_fs p).
Proof. unfold real_fs. apply _. Defined.

(** Deduplication by mount path, first occurrence winning; [seen] holds
    the paths met so far. *)
Fixpoint first_by_mount (seen : gset str) (parts : list sdiskpart)
  : list sdiskpart :=
  match parts with
  | [] => []
  | p :: ps =>
      if decide (mountpoint p ∈ seen) then first_by_mount seen ps
      else p :: first_by_mount (seen ∪ {[mountpoint p]}) ps
  end.

(** The enumeration in the order the specification words it: exclude the
    pseudo filesystems, then deduplicate what remains. *)
Definition exclude_then_dedup (parts : list sdiskpart) : list sdiskpart :=
  first_by_mount ∅ (filter real_fs parts).

(** The order of the source: deduplicate all partitions, then exclude. *)
Definition dedup_then_exclude (parts : list sdiskpart) : list sdiskpart :=
  filter real_fs (first_by_mount ∅ parts).

Abbreviation mounts := (fmap (M := list) DiskUsageItem.mount).
Abbreviation mountpoints := (fmap (M := list) mountpoint).

(** The five ways one iteration of the loop can go. *)
Inductive step_case {World : Type} (os : OS World) (part : sdiskpart)
  (seen : gset str) (items : list DiskUsageItem.t) (w : World)
  : outcome (gset str * list DiskUsageItem.t) * World -> Prop :=
| step_seen :
    mountpoint part ∈ seen ->
    step_case os part seen items w (Return (seen, items), w)
| step_pseudo :
    mountpoint part ∉ seen -> ¬ real_fs part ->
    step_case os part seen items w
      (Return (seen ∪ {[mountpoint part]}, items), w)
| step_denied msg w' :
    mountpoint part ∉ seen -> real_fs part ->
    psutil_disk_usage os (mountpoint part) w = (Raise (PermissionError msg), w') ->
    step_case os part seen items w
      (Return (seen ∪ {[mountpoint part]}, items), w')
| step_failed e w' :
    mountpoint part ∉ seen -> real_fs part ->
    psutil_disk_usage os (mountpoint part) w = (Raise e, w') ->
    is_PermissionError e = false ->
    step_case os part seen items w (Raise e, w')
| step_added du w' :
    mountpoint part ∉ seen -> real_fs part ->
    psutil_disk_usage os (mountpoint part) w = (Return du, w') ->
    step_case os part seen items w
      (Return (seen ∪ {[mountpoint part]},
               items ++ [DiskUsageItem_of (mountpoint part) du]), w').

(** The number of entries of a disk sequence for the mount path [m]. *)
Definition entries_for (m : str) (items : list DiskUsageItem.t) : nat :=
  length (filter (fun d => DiskUsageItem.mount d = m) items).


(** A [try] block that ran to its end from the world [w]: the partitions
    it enumerated, the entries its loop gathered, and the snapshot, the
    response and the world it ended with. *)
Inductive run {World : Type} (os : OS World) (w : World)
  (parts : list sdiskpart) (items : list DiskUsageItem.t) (m : Metrics.t)
  (r : ApiResponse.t) (w' : World) : Prop :=
| Run (tm : struct_time) (w1 w2 w3 w4 w5 w6 w7 : World) :
    load_average os w1 = (Return (Metrics.load_avg m), w2) ->
    psutil_disk_partitions os w3 = (Return parts, w4) ->
    disk_loop os parts w4 = (Return items, w5) ->
    disk_fallback os items w5 = (Return (Metrics.disk m), w6) ->
    time_gmtime os w7 = (tm, w') ->
    r = {| ApiResponse.ok := true;
           ApiResponse.ts := strftime ts_format tm;
           ApiResponse.metrics := Some m;
           ApiResponse.error := None |} ->
    run os w parts items m r w'.

Definition is_digit (c : N) : bool := ((48 <=? c) && (c <=? 57))%N.

(** [YYYY-MM-DDTHH:MM:SSZ]: UTC, ISO 8601, second precision. *)
Definition iso8601_utc_seconds (s : str) : bool :=
  match s with
  | [y1; y2; y3; y4; h1; m1; m2; h2; d1; d2; t; hh1; hh2; c1; mi1; mi2; c2;
     s1; s2; z] =>
      forallb is_digit [y1; y2; y3; y4; m1; m2; d1; d2; hh1; hh2; mi1; mi2; s1; s2]
      && (h1 =? 45)%N && (h2 =? 45)%N && (t =? 84)%N
      && (c1 =? 58)%N && (c2 =? 58)%N && (z =? 90)%N
  | _ => false
  end.

(** The unit tier of a byte count: it rises at each power of 1024 and
    stops at the last unit. *)
Definition tier_of (n : Z) : nat :=
  if (n <? 1024)%Z then 0
  else if (n <? 1024 ^ 2)%Z then 1
  else if (n <? 1024 ^ 3)%Z then 2
  else if (n <? 1024 ^ 4)%Z then 3
  else if (n <? 1024 ^ 5)%Z then 4
  else 5.

(** The number of bits of a non-negative integer ([int.bit_length]). *)
Definition bit_length (a : Z) : Z :=
  if (a =? 0)%Z then 0%Z else (Z.log2 a + 1)%Z.

(** [float(n)] spelled out on the bits of [n]: integers of at most 53
    bits are kept, longer ones lose their low bits to a rounding that
    may carry into one more bit. *)
Definition nearest_float (n : Z) : outcome float :=
  if (n =? 0)%Z then Return (S754_zero false)
  else
    let a := Z.abs n in
    let k := (bit_length a - prec)%Z in
    let m := if (k <=? 0)%Z then Z.shiftl a (- k) else rne_div a (2 ^ k) in
    let '(m, e) :=
      if (m =? 2 ^ prec)%Z then (2 ^ (prec - 1), k + 1)%Z else (m, k) in
    if (emax - prec <? e)%Z
    then Raise (OverflowError (lit "int too large to convert to float"))
    else Return (S754_finite (n <? 0)%Z (Z.to_pos m) e).

(** A mantissa of exactly 53 bits. *)
Definition normal (m : positive) : Prop := (2 ^ 52 <= Z.pos m < 2 ^ 53)%Z.

(** The round bit and the sticky bit after [k] halvings of [m]. *)
Definition round_bit (m : Z) (k : nat) : bool :=
  match k with
  | O => false
  | S k' => Z.odd (m / 2 ^ Z.of_nat k')
  end.

Definition sticky_bit (m : Z) (k : nat) : bool :=
  match k with
  | O => false
  | S k' => negb (m mod 2 ^ Z.of_nat k' =? 0)%Z
  end.

(** A non-negative integer rounded to 53 significant bits, ties to even:
    the value of [float(a)]. *)
Definition round53 (a : Z) : Z :=
  let k := (bit_length a - 53)%Z in
  if (k <=? 0)%Z then a else (rne_div a (2 ^ k) * 2 ^ k)%Z.

(** The first integer [float] cannot convert. *)
Definition float_limit : Z := (2 ^ 1024 - 2 ^ 970)%Z.

(** What [float] makes of a positive integer [a] with the sign [s]: a
    binary64 number with a full mantissa whose value is the integer
    rounded to 53 bits, or an overflow from [float_limit] on. *)
Inductive float_of_pos (a : Z) (s : bool) : outcome float -> Prop :=
| float_finite m e :
    normal m -> (-52 <= e <= 971)%Z ->
    (Z.pos m * 2 ^ (e + 52) = round53 a * 2 ^ 52)%Z ->
    (a < float_limit)%Z ->
    float_of_pos a s (Return (S754_finite s m e))
| float_overflow :
    (float_limit <= a)%Z ->
    float_of_pos a s
      (Raise (OverflowError (lit "int too large to convert to float"))).

(** The number [%.1f] prints for a float, in tenths. *)
Definition shown (x : float) : Z :=
  match x with
  | S754_finite s m e => cond_Zopp s (tenths m e)
  | _ => 0%Z
  end.

(** Reading a text of [_bytes_to_human] back: the digits before the
    unit, as a number of tenths, and the unit. *)
Definition digit_of (c : N) : option (Decimal.uint -> Decimal.uint) :=
  if (c =? 48)%N then Some Decimal.D0
  else if (c =? 49)%N then Some Decimal.D1
  else if (c =? 50)%N then Some Decimal.D2
  else if (c =? 51)%N then Some Decimal.D3
  else if (c =? 52)%N then Some Decimal.D4
  else if (c =? 53)%N then Some Decimal.D5
  else if (c =? 54)%N then Some Decimal.D6
  else if (c =? 55)%N then Some Decimal.D7
  else if (c =? 56)%N then Some Decimal.D8
  else if (c =? 57)%N then Some Decimal.D9
  else None.

Fixpoint read_uint (s : str) : Decimal.uint * str :=
  match s with
  | c :: s' =>
      match digit_of c with
      | Some D => let '(d, rest) := read_uint s' in (D d, rest)
      | None => (Decimal.Nil, s)
      end
  | [] => (Decimal.Nil, [])
  end.

Definition read_unsigned (s : str) : option (Z * str) :=
  match read_uint s with
  | (Decimal.Nil, _) => None
  | (d, c :: f :: u) =>
      if (c =? 46)%N then
        match digit_of f with
        | Some D => Some (10 * Z.of_N (N.of_uint d)
                          + Z.of_N (N.of_uint (D Decimal.Nil)), u)%Z
        | None => None
        end
      else None
  | _ => None
  end.

Definition read_human (s : str) : option (Z * str) :=
  match s with
  | c :: s' =>
      if (c =? 45)%N
      then (fun '(t, u) => (- t, u)%Z) <$> read_unsigned s'
      else read_unsigned s
  | [] => None
  end.

(** Strings of exactly two, and of exactly four, decimal digits. *)
Definition two_digits (s : str) : bool :=
  match s with
  | [a; b] => is_digit a && is_digit b
  | _ => false
  end.

Definition four_digits (s : str) : bool :=
  match s with
  | [a; b; c; d] => is_digit a && is_digit b && is_digit c && is_digit d
  | _ => false
  end.

(** The broken-down times [time.gmtime()] yields for a clock between the
    years 1000 and 9999. *)
Definition valid_tm (tm : struct_time) : Prop :=
  (1000 <= tm_year tm <= 9999 /\ 1 <= tm_mon tm <= 12 /\ 1 <= tm_mday tm <= 31
   /\ 0 <= tm_hour tm <= 23 /\ 0 <= tm_min tm <= 59 /\ 0 <= tm_sec tm <= 61)%Z.

(** What a run answers: [ok], the status code written (if any), whether
    a snapshot and an error message are there. *)
Definition answer {World : Type} (c : M World (ApiResponse.t * Response))
  (w : World) : option (bool * option Z * bool * bool) :=
  match c w with
  | (Return (r, resp), _) =>
      Some (ApiResponse.ok r, status_code resp,
            bool_decide (is_Some (ApiResponse.metrics r)),
            bool_decide (is_Some (ApiResponse.error r)))
  | (Raise _, _) => None
  end.

(** An [ApiResponse] with exactly one variant populated. *)
Definition one_variant (r : ApiResponse.t) : Prop :=
  (ApiResponse.ok r = true /\ is_Some (ApiResponse.metrics r)
   /\ ApiResponse.error r = None)
  \/ (ApiResponse.ok r = false /\ ApiResponse.metrics r = None
      /\ is_Some (ApiResponse.error r)).

(** Texts made of whitespace only, and texts that neither start nor end
    with whitespace. *)
Definition all_space (s : str) : Prop := Forall (fun c => isspace c = true) s.

Definition trimmed (s : str) : Prop :=
  (forall c t, s = c :: t -> isspace c = false)
  /\ (forall t c, s = t ++ [c] -> isspace c = false).

(** The two messages of [_require_auth]. *)
Definition msg_missing : str := lit "Missing Authorization Bearer token".
Definition msg_invalid : str := lit "Invalid token".

(** No query of the host is refused with [PermissionError]. *)
Definition never_refused {World : Type} (os : OS World) : Prop :=
  (forall x w msg w', psutil_cpu_percent os x w <> (Raise (PermissionError msg), w'))
  /\ (forall w msg w', psutil_virtual_memory os w <> (Raise (PermissionError msg), w'))
  /\ (forall w msg w', psutil_disk_partitions os w <> (Raise (PermissionError msg), w'))
  /\ (forall w msg w', psutil_disk_usage os (lit "/") w <> (Raise (PermissionError msg), w'))
  /\ (forall w msg w', psutil_net_io_counters os w <> (Raise (PermissionError msg), w'))
  /\ (forall w msg w', time_time os w <> (Raise (PermissionError msg), w'))
  /\ (forall w msg w', psutil_boot_time os w <> (Raise (PermissionError msg), w'))
  /\ (forall w msg w', socket_gethostname os w <> (Raise (PermissionError msg), w')).

(** The entries of the partitions [parts], queried in turn: a refused
    mount is skipped, any other failure ends the collection. *)
Fixpoint collect (usage : str -> outcome sdiskusage) (parts : list sdiskpart)
  : outcome (list DiskUsageItem.t) :=
  match parts with
  | [] => Return []
  | p :: ps =>
      match usage (mountpoint p) with
      | Return du =>
          match collect usage ps with
          | Return items => Return (DiskUsageItem_of (mountpoint p) du :: items)
          | Raise e => Raise e
          end
      | Raise (PermissionError _) => collect usage ps
      | Raise e => Raise e
      end
  end.

(** The same on a host with state: the usage of the partitions [ps] is
    queried in order, each query in the world the one before left; an
    answer gives an entry, a refusal is skipped, and any other failure
    ends the run with its exception. *)
Fixpoint usage_entries {World : Type} (os : OS World) (ps : list sdiskpart)
  : M World (list DiskUsageItem.t) :=
  match ps with
  | [] => fun w => (Return [], w)
  | p :: ps =>
      fun w =>
        match psutil_disk_usage os (mountpoint p) w with
        | (Return du, w1) =>
            match usage_entries os ps w1 with
            | (Return items, w2) =>
                (Return (DiskUsageItem_of (mountpoint p) du :: items), w2)
            | (Raise e, w2) => (Raise e, w2)
            end
        | (Raise (PermissionError _), w1) => usage_entries os ps w1
        | (Raise e, w1) => (Raise e, w1)
        end
  end.

(** The usage query of the path [m] is refused, or answered, whenever it
    is made. *)
Definition always_refused {World : Type} (os : OS World) (m : str) : Prop :=
  forall w, exists msg w',
    psutil_disk_usage os m w = (Raise (PermissionError msg), w').

Definition always_answered {World : Type} (os : OS World) (m : str) : Prop :=
  forall w, exists du w', psutil_disk_usage os m w = (Return du, w').

End Spec.

(** ** A host with fixed answers *)

Module Host.
Import PyStr PyFloat.

(** What each query answers, whenever it is asked. *)
Record answers : Type :=
  { cpu : outcome float;
    loadavg : outcome (float * float * float);
    vm : outcome svmem;
    partitions : outcome (list sdiskpart);
    usage : str -> outcome sdiskusage;
    net : outcome snetio;
    now : outcome float;
    boot : outcome float;
    host : outcome str;
    clock : struct_time }.

Definition os_of (a : answers) : OS unit :=
  {| psutil_cpu_percent := fun _ w => (cpu a, w);
     os_getloadavg := fun w => (loadavg a, w);
     psutil_virtual_memory := fun w => (vm a, w);
     psutil_disk_partitions := fun w => (partitions a, w);
     psutil_disk_usage := fun m w => (usage a m, w);
     psutil_net_io_counters := fun w => (net a, w);
     time_time := fun w => (now a, w);
     psutil_boot_time := fun w => (boot a, w);
     socket_gethostname := fun w => (host a, w);
     time_gmtime := fun w => (clock a, w) |}.

Definition part (dev mnt fs : string) : sdiskpart :=
  {| device := lit dev; mountpoint := lit mnt; fstype := lit fs; opts := lit "rw" |}.

Definition du0 : sdiskusage :=
  {| sdiskusage_total := 1000; sdiskusage_used := 400; sdiskusage_free := 600;
     sdiskusage_percent := S754_finite false (5 * 2 ^ 50) (-47) |}.

(** A Linux host on which every query succeeds. *)
Definition linux : answers :=
  {| cpu := Return (S754_finite false (2 ^ 52) (-49));
     loadavg := Return (f0, f0, f0);
     vm := Return {| svmem_total := 8192; svmem_available := 4096;
                     svmem_percent := S754_finite false (25 * 2 ^ 48) (-48);
                     svmem_used := 4096 |};
     partitions := Return [part "/dev/sda1" "/" "ext4"; part "tmpfs" "/run" "tmpfs"];
     usage := fun _ => Return du0;
     net := Return {| snetio_bytes_sent := 10; snetio_bytes_recv := 20 |};
     now := Return (S754_finite false (2 ^ 52) (-22));
     boot := Return (S754_finite false (2 ^ 52) (-23));
     host := Return (lit "monitor-1");
     clock := {| tm_year := 2024; tm_mon := 3; tm_mday := 9; tm_hour := 7;
                 tm_min := 5; tm_sec := 0 |} |}.

Definition with_partitions (a : answers) (ps : list sdiskpart) : answers :=
  {| cpu := cpu a; loadavg := loadavg a; vm := vm a; partitions := Return ps;
     usage := usage a; net := net a; now := now a; boot := boot a;
     host := host a; clock := clock a |}.

Definition with_usage (a : answers) (u : str -> outcome sdiskusage) : answers :=
  {| cpu := cpu a; loadavg := loadavg a; vm := vm a; partitions := partitions a;
     usage := u; net := net a; now := now a; boot := boot a;
     host := host a; clock := clock a |}.


Definition with_vm (a : answers) (v : outcome svmem) : answers :=
  {| cpu := cpu a; loadavg := loadavg a; vm := v; partitions := partitions a;
     usage := usage a; net := net a; now := now a; boot := boot a;
     host := host a; clock := clock a |}.

Definition denied : exn := PermissionError (lit "[Errno 13] Permission denied").

End Host.

(** * Part II: properties *)

(** ** Text *)

Module PyStrFacts.
Import PyStr.

Lemma startswith_spec (s p : str) :
  startswith s p = true <-> exists rest, s = p ++ rest.
Proof.
  revert s; induction p as [|c p IH]; intros s; simpl.
  - split; [intros _; now exists s | reflexivity].
  - destruct s as [|d s].
    + split; [discriminate | intros [rest H]; discriminate].
    + rewrite andb_true_iff, N.eqb_eq, IH. split.
      * intros [-> [rest ->]]. now exists rest.
      * intros [rest H]. injection H as -> ->. eauto.
Qed.

Lemma removeprefix_app (p rest : str) : removeprefix (p ++ rest) p = rest.
Proof.
  unfold removeprefix.
  assert (startswith (p ++ rest) p = true) as ->
    by (apply startswith_spec; eauto).
  apply drop_app_length.
Qed.

End PyStrFacts.

(** ** The monad of the handler *)

Module MonadFacts.
Import Monad.
Section Laws.
Context {World : Type}.

Lemma bind_return {A B : Type} (c : M World A) (k : A -> M World B) w a w' :
  c w = (Return a, w') -> bind c k w = k a w'.
Proof. unfold bind. now intros ->. Qed.

Lemma bind_raise {A B : Type} (c : M World A) (k : A -> M World B) w e w' :
  c w = (Raise e, w') -> bind c k w = (Raise e, w').
Proof. unfold bind. now intros ->. Qed.

(** A [bind] that returns went through both of its parts. *)
Lemma bind_inv {A B : Type} (c : M World A) (k : A -> M World B) w b w2 :
  bind c k w = (Return b, w2) ->
  exists a w1, c w = (Return a, w1) /\ k a w1 = (Return b, w2).
Proof.
  unfold bind. destruct (c w) as [[a|e] w1]; [eauto | discriminate].
Qed.


Lemma attempt_eq {A : Type} (c : M World A) w :
  attempt c w = (Return (c w).1, (c w).2).
Proof. unfold attempt. now destruct (c w). Qed.

End Laws.
End MonadFacts.

(** ** Authentication *)

Module AuthFacts.
Import PyStr PyStrFacts Auth Monad MonadFacts Api.

Lemma metrics_try_unauthorized {World : Type} (os : OS World)
  (token authorization : option str) e w :
  _require_auth token authorization = Raise e ->
  metrics_try os token authorization w = (Raise e, w).
Proof. intros H. unfold metrics_try, bind, lift. now rewrite H. Qed.

(** The only exception [_require_auth] raises is [PermissionError]. *)
Lemma require_auth_raises token authorization e :
  _require_auth token authorization = Raise e -> is_PermissionError e = true.
Proof.
  unfold _require_auth.
  repeat match goal with
         | |- context [match ?x with _ => _ end] => destruct x
         end; intros H; try discriminate; now inversion H.
Qed.

(** C1. With a non-empty secret configured, [_require_auth] succeeds
    exactly when the header is the case-sensitive prefix ["Bearer "]
    followed by a remainder that equals the secret once stripped of
    surrounding whitespace; in every other case, the absent header
    included, it raises [PermissionError], and the endpoint answers 401
    with [ok = false] and an error message. *)
Theorem require_auth_bearer_iff (secret : str) (authorization : option str) :
  secret <> [] ->
  (_require_auth (Some secret) authorization = Return tt <->
   exists rest, authorization = Some (lit "Bearer " ++ rest) /\ strip rest = secret)
  /\ (_require_auth (Some secret) authorization <> Return tt ->
      (exists msg, _require_auth (Some secret) authorization
                   = Raise (PermissionError msg))
      /\ forall (World : Type) (os : OS World) response w,
          exists r w',
            metrics os (Some secret) response authorization w
            = (Return (r, {| status_code := Some 401%Z |}), w')
            /\ ApiResponse.ok r = false /\ ApiResponse.metrics r = None
            /\ is_Some (ApiResponse.error r)).
Proof.
  intros Hsecret.
  assert (Htruthy : truthy (Some secret) = true) by (now destruct secret).
  split.
  - unfold _require_auth. rewrite Htruthy. cbn [negb]. split.
    + destruct authorization as [a|]; [|discriminate].
      destruct (startswith a Bearer) eqn:Hpre.
      * apply startswith_spec in Hpre as [rest ->].
        rewrite orb_false_r.
        destruct (truthy _); [|discriminate]. cbn [negb].
        rewrite removeprefix_app.
        case_bool_decide as Heq; [|discriminate].
        intros _. exists rest. split; [reflexivity | congruence].
      * rewrite orb_true_r. discriminate.
    + intros [rest [-> Hstrip]].
      change (lit "Bearer ") with Bearer.
      assert (startswith (Bearer ++ rest) Bearer = true) as ->
        by (apply startswith_spec; now exists rest).
      assert (truthy (Some (Bearer ++ rest)) = true) as -> by reflexivity.
      cbn [negb orb]. rewrite removeprefix_app, Hstrip.
      now rewrite bool_decide_eq_true_2.
  - intros Hfail.
    destruct (_require_auth (Some secret) authorization) as [[]|e] eqn:Hauth;
      [congruence|].
    pose proof (require_auth_raises _ _ _ Hauth) as Hperm.
    destruct e as [msg| | |]; try discriminate. split; [eauto|].
    intros World os response w.
    unfold metrics, bind. rewrite attempt_eq.
    rewrite (metrics_try_unauthorized os _ _ _ w Hauth). simpl.
    unfold failure, bind, timestamp, ret.
    destruct (time_gmtime os w) as [tm w']. simpl. eauto 10.
Qed.

Lemma require_auth_bearer_iff_witness :
  lit "abc123" <> []
  /\ (_require_auth (Some (lit "abc123")) (Some (lit "Bearer abc123")) = Return tt <->
      exists rest, Some (lit "Bearer abc123") = Some (lit "Bearer " ++ rest)
                   /\ strip rest = lit "abc123").
Proof.
  split; [discriminate|].
  apply (require_auth_bearer_iff (lit "abc123") (Some (lit "Bearer abc123"))).
  discriminate.
Defined.

(** C3. When the configured secret is absent or the empty string,
    [_require_auth] succeeds whatever the header is: absent, empty or
    malformed. *)
Theorem require_auth_disabled (authorization : option str) :
  _require_auth None authorization = Return tt
  /\ _require_auth (Some []) authorization = Return tt.
Proof. split; reflexivity. Qed.

End AuthFacts.

(** ** Disk enumeration *)

Module DiskFacts.
Import PyStr PyFloat Monad MonadFacts Api Spec.

Section Loop.
Context {World : Type} (os : OS World).

Lemma disk_step_case part seen items w :
  step_case os part seen items w (disk_step os part (seen, items) w).
Proof.
  unfold disk_step.
  destruct (decide (mountpoint part ∈ seen)) as [Hin|Hin]; [now constructor|].
  destruct (decide (fstype part ∈ pseudo_fstypes)) as [Hfs|Hfs].
  { apply step_pseudo; [done|]. unfold real_fs. tauto. }
  assert (Hreal : real_fs part) by exact Hfs.
  unfold bind. rewrite attempt_eq.
  destruct (psutil_disk_usage os (mountpoint part) w) as [[du|e] w'] eqn:Hq;
    simpl.
  - eapply step_added; eauto.
  - destruct e;
      solve [ eapply step_denied; eauto | eapply step_failed; eauto ].
Qed.

(** What the loop adds is drawn, in order, from the partitions that are
    first for their mount path and not pseudo. *)
Lemma for_each_disk_step parts : forall seen items w seen' items' w',
  for_each parts (disk_step os) (seen, items) w = (Return (seen', items'), w') ->
  exists new,
    items' = items ++ new
    /\ mounts new `sublist_of` mountpoints (filter real_fs (first_by_mount seen parts)).
Proof.
  induction parts as [|part parts IH]; intros seen items w seen' items' w' Hrun.
  - injection Hrun as <- <- <-. exists []. now rewrite app_nil_r.
  - cbn [for_each] in Hrun.
    apply bind_inv in Hrun as ([seen1 items1] & w1 & Hstep & Hrest).
    pose proof (disk_step_case part seen items w) as Hcase.
    rewrite Hstep in Hcase. apply IH in Hrest as (new & -> & Hsub).
    simpl. inversion Hcase; subst.
    + exists new. now rewrite decide_True.
    + exists new. rewrite decide_False by done. now rewrite filter_cons_False.
    + exists new. rewrite decide_False by done. rewrite filter_cons_True by done.
      split; [done|]. now apply sublist_cons.
    + eexists (_ :: new). rewrite decide_False by done.
      rewrite filter_cons_True by done. rewrite <- app_assoc. split; [done|].
      now apply sublist_skip.
Qed.

(** When no usage query is refused, nothing is skipped. *)
Lemma for_each_disk_step_all parts : forall seen items w seen' items' w',
  (forall m w0 msg w1,
      psutil_disk_usage os m w0 <> (Raise (PermissionError msg), w1)) ->
  for_each parts (disk_step os) (seen, items) w = (Return (seen', items'), w') ->
  exists new,
    items' = items ++ new
    /\ mounts new = mountpoints (filter real_fs (first_by_mount seen parts)).
Proof.
  induction parts as [|part parts IH];
    intros seen items w seen' items' w' Hok Hrun.
  - injection Hrun as <- <- <-. exists []. now rewrite app_nil_r.
  - cbn [for_each] in Hrun.
    apply bind_inv in Hrun as ([seen1 items1] & w1 & Hstep & Hrest).
    pose proof (disk_step_case part seen items w) as Hcase.
    rewrite Hstep in Hcase. apply IH in Hrest as (new & -> & Heq); [|done].
    simpl. inversion Hcase; subst.
    + exists new. now rewrite decide_True.
    + exists new. rewrite decide_False by done. now rewrite filter_cons_False.
    + now destruct (Hok _ _ _ _ ltac:(eassumption)).
    + eexists (_ :: new). rewrite decide_False by done.
      rewrite filter_cons_True by done. rewrite <- app_assoc. split; [done|].
      simpl. now f_equal.
Qed.

End Loop.

Lemma first_by_mount_fresh parts : forall seen p,
  p ∈ first_by_mount seen parts -> (mountpoint p ∉ seen) /\ (p ∈ parts).
Proof.
  induction parts as [|q parts IH]; intros seen p; simpl.
  - now intros ?%elem_of_nil.
  - destruct (decide (mountpoint q ∈ seen)) as [Hin|Hin].
    + intros [? ?]%IH. split; [done|]. now apply list_elem_of_further.
    + intros [Heq|Hp]%elem_of_cons.
      * subst p. split; [done | apply list_elem_of_here].
      * apply IH in Hp as [Hp ?]. split; [|now apply list_elem_of_further].
        intros Hs. apply Hp, elem_of_union. now left.
Qed.

Lemma first_by_mount_NoDup parts : forall seen,
  NoDup (mountpoints (first_by_mount seen parts)).
Proof.
  induction parts as [|q parts IH]; intros seen; simpl; [constructor|].
  destruct (decide (mountpoint q ∈ seen)); [apply IH|].
  rewrite fmap_cons. constructor; [|apply IH].
  intros (p & Heq & Hp)%list_elem_of_fmap.
  apply first_by_mount_fresh in Hp as [Hp _]. set_solver.
Qed.

Lemma dedup_then_exclude_NoDup parts seen :
  NoDup (mountpoints (filter real_fs (first_by_mount seen parts))).
Proof.
  eapply sublist_NoDup; [apply (first_by_mount_NoDup parts seen)|].
  apply fmap_sublist, sublist_filter.
Qed.

Lemma entries_for_NoDup m items : NoDup (mounts items) -> entries_for m items <= 1.
Proof.
  unfold entries_for. induction items as [|d items IH]; [simpl; lia|].
  rewrite fmap_cons, NoDup_cons. intros [Hd Hnd]. rewrite filter_cons.
  destruct (decide (DiskUsageItem.mount d = m)) as [<-|]; [|now apply IH].
  assert (filter (fun d0 => DiskUsageItem.mount d0 = DiskUsageItem.mount d) items = [])
    as ->; [|simpl; lia].
  clear IH Hnd. induction items as [|d' items IH]; [done|].
  rewrite fmap_cons, not_elem_of_cons in Hd. destruct Hd as [Hne Hd].
  rewrite filter_cons_False by congruence. now apply IH.
Qed.

Lemma entries_for_absent m items : m ∉ mounts items -> entries_for m items = 0.
Proof.
  unfold entries_for. induction items as [|d items IH]; [done|].
  rewrite fmap_cons, not_elem_of_cons. intros [Hne Hm].
  rewrite filter_cons_False by congruence. now apply IH.
Qed.

Lemma entries_for_present m items : m ∈ mounts items -> 1 <= entries_for m items.
Proof.
  unfold entries_for. induction items as [|d items IH].
  - now intros ?%elem_of_nil.
  - rewrite fmap_cons, filter_cons. intros [Heq|Hm]%elem_of_cons.
    + rewrite decide_True by done. cbn [length]. lia.
    + destruct (decide _); cbn [length]; [lia | now apply IH].
Qed.

(** The first occurrences hold one partition per mount path. *)
Lemma first_by_mount_unique parts : forall seen p q,
  p ∈ first_by_mount seen parts -> q ∈ first_by_mount seen parts ->
  mountpoint p = mountpoint q -> p = q.
Proof.
  induction parts as [|a parts IH]; intros seen p q; cbn [first_by_mount].
  - now intros ?%elem_of_nil.
  - destruct (decide (mountpoint a ∈ seen)); [apply IH|].
    intros [Hp|Hp]%elem_of_cons [Hq|Hq]%elem_of_cons Heq.
    + congruence.
    + subst p. apply first_by_mount_fresh in Hq as [Hq _].
      exfalso. apply Hq. rewrite <- Heq. apply elem_of_union. right.
      now apply elem_of_singleton.
    + subst q. apply first_by_mount_fresh in Hp as [Hp _].
      exfalso. apply Hp. rewrite Heq. apply elem_of_union. right.
      now apply elem_of_singleton.
    + eapply IH; eauto.
Qed.

(** *** The loop as a run of usage queries *)

Section Queries.
Context {World : Type} (os : OS World).

(** The loop is the run of the usage queries of the real partitions
    among the first occurrences, whether it returns or raises. *)
Lemma for_each_usage_entries parts : forall seen items w,
  match usage_entries os (filter real_fs (first_by_mount seen parts)) w with
  | (Return new, w') =>
      exists seen', for_each parts (disk_step os) (seen, items) w
                    = (Return (seen', items ++ new), w')
  | (Raise e, w') => for_each parts (disk_step os) (seen, items) w = (Raise e, w')
  end.
Proof.
  induction parts as [|part parts IH]; intros seen items w.
  - cbn. exists seen. now rewrite app_nil_r.
  - cbn [for_each first_by_mount].
    pose proof (disk_step_case os part seen items w) as Hcase.
    unfold bind.
    destruct Hcase as [Hin|Hin Hfs|msg w1 Hin Hfs Hq|e w1 Hin Hfs Hq He
                      |du w1 Hin Hfs Hq].
    + rewrite decide_True by done. apply IH.
    + rewrite decide_False by done. rewrite filter_cons_False by done.
      apply IH.
    + rewrite decide_False by done. rewrite filter_cons_True by done.
      cbn [usage_entries]. rewrite Hq. apply IH.
    + rewrite decide_False by done. rewrite filter_cons_True by done.
      cbn [usage_entries]. rewrite Hq. destruct e; [discriminate|reflexivity..].
    + rewrite decide_False by done. rewrite filter_cons_True by done.
      cbn [usage_entries]. rewrite Hq.
      specialize (IH (seen ∪ {[mountpoint part]})
                    (items ++ [DiskUsageItem_of (mountpoint part) du]) w1).
      destruct (usage_entries os _ w1) as [[new|e] w2]; [|exact IH].
      destruct IH as [seen' IH]. exists seen'. rewrite IH.
      now rewrite <- app_assoc.
Qed.

Lemma disk_loop_usage_entries parts w :
  disk_loop os parts w = usage_entries os (dedup_then_exclude parts) w.
Proof.
  unfold disk_loop, bind, dedup_then_exclude.
  pose proof (for_each_usage_entries parts ∅ [] w) as H.
  destruct (usage_entries os _ w) as [[new|e] w'].
  - destruct H as [seen' ->]. reflexivity.
  - now rewrite H.
Qed.

(** Every entry is built from an answer to the usage query of the mount
    path of one of the partitions. *)
Lemma usage_entries_answered ps : forall w items w',
  usage_entries os ps w = (Return items, w') ->
  forall d, d ∈ items ->
    exists p w0 du w1,
      p ∈ ps
      /\ psutil_disk_usage os (mountpoint p) w0 = (Return du, w1)
      /\ d = DiskUsageItem_of (mountpoint p) du.
Proof.
  induction ps as [|p ps IH]; intros w items w'; cbn [usage_entries].
  - intros [= <- _] d Hd. now apply elem_of_nil in Hd.
  - destruct (psutil_disk_usage os (mountpoint p) w) as [[du|e] w1] eqn:Hq.
    + destruct (usage_entries os ps w1) as [[rest|e] w2] eqn:Hrest; [|discriminate].
      intros [= <- <-] d [->|Hd]%elem_of_cons.
      * exists p, w, du, w1. split; [apply list_elem_of_here|done].
      * destruct (IH _ _ _ Hrest d Hd) as (q & w0 & du' & w3 & Hin & Hq' & Hd').
        exists q, w0, du', w3. split; [now apply list_elem_of_further|done].
    + destruct e; [|discriminate..].
      intros Hrest d Hd.
      destruct (IH _ _ _ Hrest d Hd) as (q & w0 & du' & w3 & Hin & Hq' & Hd').
      exists q, w0, du', w3. split; [now apply list_elem_of_further|done].
Qed.

(** A partition whose usage query is always answered has its entry. *)
Lemma usage_entries_kept ps : forall w items w',
  usage_entries os ps w = (Return items, w') ->
  forall p, p ∈ ps -> always_answered os (mountpoint p) ->
    mountpoint p ∈ mounts items.
Proof.
  induction ps as [|q ps IH]; intros w items w'; cbn [usage_entries].
  - intros _ p Hp. now apply elem_of_nil in Hp.
  - destruct (psutil_disk_usage os (mountpoint q) w) as [[du|e] w1] eqn:Hq.
    + destruct (usage_entries os ps w1) as [[rest|e] w2] eqn:Hrest; [|discriminate].
      intros [= <- <-] p [->|Hp]%elem_of_cons Hans; rewrite fmap_cons.
      * apply list_elem_of_here.
      * apply list_elem_of_further. eapply IH; eauto.
    + destruct e; [|discriminate..].
      intros Hrest p [->|Hp]%elem_of_cons Hans.
      * destruct (Hans w) as (du & w0 & Hans'). rewrite Hq in Hans'. discriminate.
      * eapply IH; eauto.
Qed.

End Queries.

(** *** Reading a response back into the run that produced it *)

Section Run.
Context {World : Type} (os : OS World).

Lemma load_average_returns w :
  exists a b c w',
    load_average os w = (Return [a; b; c], w')
    /\ (os_getloadavg os w = (Return (a, b, c), w')
        \/ (exists e, os_getloadavg os w = (Raise e, w')) /\ a = f0 /\ b = f0 /\ c = f0).
Proof.
  unfold load_average, bind. rewrite attempt_eq.
  destruct (os_getloadavg os w) as [[[[a b] c]|e] w']; simpl.
  - exists a, b, c, w'. eauto.
  - exists f0, f0, f0, w'. eauto 10.
Qed.

Ltac unbind H :=
  let a := fresh "a" in
  let w := fresh "w" in
  let Hq := fresh "Hq" in
  apply bind_inv in H as (a & w & Hq & H).

Lemma metrics_try_run token authorization w r w' :
  metrics_try os token authorization w = (Return r, w') ->
  exists parts items m, run os w parts items m r w'.
Proof.
  unfold metrics_try. intros H.
  unbind H. unbind H. unbind H. unbind H. unbind H. unbind H. unbind H.
  unbind H. unbind H. unbind H. unbind H. unbind H. unbind H. unbind H.
  unbind H. unbind H.
  unfold ret in H. injection H as <- <-.
  unfold timestamp in Hq14. destruct (time_gmtime os w14) as [tm wt] eqn:Htm.
  injection Hq14 as <- <-.
  destruct (load_average_returns w1) as (la & lb & lc & wl & Hl & _).
  rewrite Hl in Hq1. injection Hq1 as <- <-.
  unfold lift in Hq11, Hq12, Hq13. cbn in Hq11, Hq12, Hq13.
  injection Hq11 as <- <-. injection Hq12 as <- <-. injection Hq13 as <- <-.
  do 3 eexists. econstructor; [..|reflexivity]; cbn; eauto.
Qed.

(** A response of [metrics] either comes from the end of the [try] block,
    with the response object untouched, or from an [except] clause. *)
Lemma metrics_cases token response authorization w :
  (exists r w' parts items m,
      metrics os token response authorization w = (Return (r, response), w')
      /\ run os w parts items m r w')
  \/ (exists e w1 tm w',
        metrics_try os token authorization w = (Raise e, w1)
        /\ time_gmtime os w1 = (tm, w')
        /\ metrics os token response authorization w
           = (Return ({| ApiResponse.ok := false;
                         ApiResponse.ts := strftime ts_format tm;
                         ApiResponse.metrics := None;
                         ApiResponse.error := Some (exn_str e) |},
                      {| status_code :=
                           Some (if is_PermissionError e then 401 else 503)%Z |}),
              w')).
Proof.
  unfold metrics, bind. rewrite attempt_eq.
  destruct (metrics_try os token authorization w) as [[r|e] w1] eqn:Htry; simpl.
  - left. apply metrics_try_run in Htry as (parts & items & m & R).
    exists r, w1, parts, items, m. now split.
  - right. destruct (time_gmtime os w1) as [tm w'] eqn:Htm.
    exists e, w1, tm, w'. split; [done|]. split; [done|].
    destruct e; unfold failure, bind, timestamp, ret; now rewrite Htm.
Qed.

Lemma metrics_snapshot_run token response authorization w r resp w' m :
  metrics os token response authorization w = (Return (r, resp), w') ->
  ApiResponse.metrics r = Some m ->
  exists parts items, run os w parts items m r w'.
Proof.
  intros Hm Hsnap.
  destruct (metrics_cases token response authorization w)
    as [(r0 & w0 & parts & items & m0 & Heq & R)
       |(e & w1 & tm & w0 & _ & _ & Heq)];
    rewrite Heq in Hm; injection Hm as <- <- <-; [|discriminate].
  exists parts, items. destruct R as [? ? ? ? ? ? ? ? ? ? ? ? ? Hr].
  rewrite Hr in Hsnap. cbn in Hsnap. injection Hsnap as <-.
  econstructor; eauto.
Qed.

End Run.

(** *** The loop and the fallback *)

Section Enumeration.
Context {World : Type} (os : OS World).

Lemma disk_loop_inv parts w items w' :
  disk_loop os parts w = (Return items, w') ->
  exists seen, for_each parts (disk_step os) (∅, []) w = (Return (seen, items), w').
Proof.
  unfold disk_loop. intros ([seen items0] & w1 & Hrun & Hret)%bind_inv.
  injection Hret as <- <-. now exists seen.
Qed.

Lemma disk_fallback_inv items w disk w' :
  disk_fallback os items w = (Return disk, w') ->
  (items <> [] /\ disk = items /\ w' = w)
  \/ (items = []
      /\ exists du, psutil_disk_usage os (lit "/") w = (Return du, w')
                    /\ disk = [DiskUsageItem_of (lit "/") du]).
Proof.
  destruct items as [|d items]; simpl.
  - intros (du & w1 & Hq & Hret)%bind_inv. injection Hret as <- <-. eauto.
  - intros Hret. injection Hret as <- <-. left. done.
Qed.

Lemma disk_loop_sublist parts w items w' :
  disk_loop os parts w = (Return items, w') ->
  mounts items `sublist_of` mountpoints (dedup_then_exclude parts).
Proof.
  intros [seen Hrun]%disk_loop_inv.
  apply for_each_disk_step in Hrun as (new & -> & Hsub). done.
Qed.

Lemma disk_loop_NoDup parts w items w' :
  disk_loop os parts w = (Return items, w') -> NoDup (mounts items).
Proof.
  intros Hsub%disk_loop_sublist.
  eapply sublist_NoDup; [apply dedup_then_exclude_NoDup | exact Hsub].
Qed.

(** The loop keeps no entry for the mount path of a pseudo partition that
    is the first enumerated for that path. *)
Lemma disk_loop_pseudo_first parts w items w' p :
  disk_loop os parts w = (Return items, w') ->
  p ∈ first_by_mount ∅ parts -> ¬ real_fs p ->
  entries_for (mountpoint p) items = 0.
Proof.
  intros Hsub%disk_loop_sublist Hp Hfs. apply entries_for_absent. intros Hin.
  eapply elem_of_sublist in Hin; [|exact Hsub].
  apply list_elem_of_fmap in Hin as (q & Hmq & Hq).
  apply list_elem_of_filter in Hq as [Hreal Hq].
  assert (p = q) by (eapply first_by_mount_unique; eauto). now subst.
Qed.

Lemma entries_for_singleton m d :
  entries_for m [d] = if decide (DiskUsageItem.mount d = m) then 1 else 0.
Proof.
  unfold entries_for. rewrite filter_cons, filter_nil. now destruct (decide _).
Qed.

(** C4 (as amended). The loop deduplicates by mount path first, over all
    enumerated partitions and with the first occurrence winning whatever
    its filesystem type, then excludes the pseudo filesystems, and then
    queries the usage of what remains, in order, skipping the mounts
    whose query is refused: it is [usage_entries] over
    [dedup_then_exclude], whether it returns or raises.  So the result
    of the loop holds at most one entry for any mount path: none when
    the first occurrence is a pseudo filesystem or the query of the path
    is refused, exactly one when the first occurrence is real and the
    query of its path is answered.  The snapshot, after the fallback,
    holds at most one entry per path as well: the entries of the loop,
    or the single entry for ["/"] when the loop kept nothing. *)
Theorem disk_loop_dedup_then_exclude parts w :
  disk_loop os parts w = usage_entries os (dedup_then_exclude parts) w
  /\ forall items w',
      disk_loop os parts w = (Return items, w') ->
      mounts items `sublist_of` mountpoints (dedup_then_exclude parts)
      /\ ((forall m w0 msg w1,
             psutil_disk_usage os m w0 <> (Raise (PermissionError msg), w1)) ->
          mounts items = mountpoints (dedup_then_exclude parts))
      /\ (forall m, entries_for m items <= 1)
      /\ (forall p, p ∈ first_by_mount ∅ parts -> ¬ real_fs p ->
            entries_for (mountpoint p) items = 0)
      /\ (forall m, always_refused os m -> entries_for m items = 0)
      /\ (forall p, p ∈ dedup_then_exclude parts ->
            always_answered os (mountpoint p) ->
            entries_for (mountpoint p) items = 1)
      /\ (forall disk w1 w2,
            disk_fallback os items w1 = (Return disk, w2) ->
            (forall m, entries_for m disk <= 1)
            /\ (items <> [] -> disk = items)
            /\ (items = [] -> mounts disk = [lit "/"])).
Proof.
  split; [apply disk_loop_usage_entries|].
  intros items w' Hloop.
  pose proof (disk_loop_sublist _ _ _ _ Hloop) as Hsub.
  pose proof (disk_loop_NoDup _ _ _ _ Hloop) as Hnd.
  pose proof Hloop as Hue. rewrite disk_loop_usage_entries in Hue.
  split; [exact Hsub|]. split; [|split; [|split; [|split; [|split]]]].
  - intros Hok. apply disk_loop_inv in Hloop as [seen Hrun].
    apply for_each_disk_step_all in Hrun as (new & -> & Heq); done.
  - intros m. now apply entries_for_NoDup.
  - intros p Hp Hfs. eapply disk_loop_pseudo_first; eauto.
  - intros m Href. apply entries_for_absent. intros Hin.
    apply list_elem_of_fmap in Hin as (d & Hm & Hd).
    destruct (usage_entries_answered os _ _ _ _ Hue d Hd)
      as (p & w0 & du & w1 & _ & Hq & Hd').
    rewrite Hd' in Hm. cbn [DiskUsageItem.mount DiskUsageItem_of] in Hm.
    destruct (Href w0) as (msg & w2 & Href'). rewrite Hm, Hq in Href'.
    discriminate.
  - intros p Hp Hans.
    pose proof (usage_entries_kept os _ _ _ _ Hue p Hp Hans) as Hin.
    apply entries_for_present in Hin.
    pose proof (entries_for_NoDup (mountpoint p) items Hnd). lia.
  - intros disk w1 w2 [(Hne & -> & _)|(Hnil & du & _ & ->)]%disk_fallback_inv.
    + split; [intros m; now apply entries_for_NoDup|]. split; [done|].
      intros Hnil. now destruct Hne.
    + split; [|split; [intros Hne; now destruct Hne | reflexivity]].
      intros m. rewrite entries_for_singleton. destruct (decide _); lia.
Qed.

(** C5. A successful collection never carries an empty disk sequence:
    when the loop kept no entry, the fallback query of the root path
    contributed the single entry of the snapshot, and otherwise the
    snapshot carries the entries of the loop. *)
Theorem snapshot_disk_nonempty token response authorization w r resp w' m :
  metrics os token response authorization w = (Return (r, resp), w') ->
  ApiResponse.metrics r = Some m ->
  Metrics.disk m <> []
  /\ exists parts items,
      run os w parts items m r w'
      /\ (items = [] ->
          exists du, Metrics.disk m = [DiskUsageItem_of (lit "/") du])
      /\ (items <> [] -> Metrics.disk m = items).
Proof.
  intros Hm Hsnap.
  destruct (metrics_snapshot_run os _ _ _ _ _ _ _ _ Hm Hsnap)
    as (parts & items & R).
  pose proof R as [tm w1 w2 w3 w4 w5 w6 w7 _ _ _ Hfb _ _].
  apply disk_fallback_inv in Hfb as [(Hne & Heq & _)|(Hnil & du & _ & Heq)].
  - split; [congruence|]. exists parts, items. split; [done|]. split; done.
  - split; [now rewrite Heq|]. exists parts, items. split; [done|].
    split; [eauto | congruence].
Qed.

(** C6 (as amended). For a partition whose filesystem type is [tmpfs],
    [devtmpfs] or [squashfs], the iteration of the loop appends nothing
    and issues no query, and every entry of a collected snapshot stems
    from another partition, with a real filesystem type and the first
    enumerated for its mount path, or else is the root entry of the
    fallback.  When the partition is the first enumerated for its mount
    path, the loop keeps no entry with that path, and neither does the
    snapshot unless the loop kept nothing and the path is ["/"]: then the
    fallback queries ["/"] and the one entry of the snapshot carries the
    mount path of the pseudo partition. *)
Theorem pseudo_partition_yields_no_entry (part : sdiskpart) :
  fstype part ∈ pseudo_fstypes ->
  (forall seen items w,
      exists seen',
        disk_step os part (seen, items) w = (Return (seen', items), w))
  /\ (forall w parts items m r w',
        run os w parts items m r w' ->
        (forall d, d ∈ Metrics.disk m ->
           (exists p, (p ∈ first_by_mount ∅ parts) /\ p <> part
                      /\ (fstype p ∉ pseudo_fstypes)
                      /\ mountpoint p = DiskUsageItem.mount d)
           \/ (items = [] /\ DiskUsageItem.mount d = lit "/"))
        /\ (part ∈ first_by_mount ∅ parts ->
            entries_for (mountpoint part) items = 0
            /\ (items <> [] \/ mountpoint part <> lit "/" ->
                entries_for (mountpoint part) (Metrics.disk m) = 0))
        /\ (items = [] -> mountpoint part = lit "/" ->
            entries_for (mountpoint part) (Metrics.disk m) = 1)).
Proof.
  intros Hfs. assert (Hpseudo : ¬ real_fs part) by (intros Hreal; now apply Hreal).
  split.
  - intros seen items w. unfold disk_step.
    destruct (decide (mountpoint part ∈ seen)); [eauto|].
    rewrite decide_True by done. eauto.
  - intros w parts items m r w' [tm w1 w2 w3 w4 w5 w6 w7 _ _ Hloop Hfb _ _].
    pose proof (fun Hp => disk_loop_pseudo_first _ _ _ _ part Hloop Hp Hpseudo)
      as Hnone.
    apply disk_fallback_inv in Hfb as [(Hne & Heq & _)|(Hnil & du & _ & Heq)];
      rewrite Heq; (split; [|split]).
    + intros d Hd. left. apply disk_loop_sublist in Hloop.
      assert (DiskUsageItem.mount d ∈ mounts items) as Hin
        by (apply list_elem_of_fmap; eauto).
      eapply elem_of_sublist in Hin; [|exact Hloop].
      apply list_elem_of_fmap in Hin as (p & Hmp & Hp).
      apply list_elem_of_filter in Hp as [Hreal Hp].
      exists p. repeat split; [done| |done|done].
      intros ->. now apply Hreal.
    + intros Hp. split; [auto|]. intros _. auto.
    + intros Hnil. now destruct Hne.
    + intros d Hd. right. apply list_elem_of_singleton in Hd as ->. done.
    + intros Hp. split; [auto|]. intros [Hne|Hne]; [now destruct Hne|].
      rewrite entries_for_singleton. now rewrite decide_False
        by (cbn [DiskUsageItem.mount DiskUsageItem_of]; congruence).
    + intros _ Hroot. rewrite entries_for_singleton.
      now rewrite decide_True
        by (cbn [DiskUsageItem.mount DiskUsageItem_of]; congruence).
Qed.

End Enumeration.

(** Witnesses and the counterexample, on a host with fixed answers. *)

Lemma disk_loop_dedup_then_exclude_witness :
  let parts := [Host.part "/dev/sda1" "/" "ext4"; Host.part "tmpfs" "/run" "tmpfs";
                Host.part "/dev/sda1" "/" "ext4"] in
  let root := DiskUsageItem_of (lit "/") Host.du0 in
  disk_loop (Host.os_of Host.linux) parts tt = (Return [root], tt)
  /\ forall m, entries_for m [root] <= 1.
Proof.
  intros parts root. split; [vm_compute; reflexivity|].
  apply (proj2 (disk_loop_dedup_then_exclude (Host.os_of Host.linux) parts tt)
           [root] tt).
  vm_compute; reflexivity.
Defined.

(** C4 (as stated) fails: two partitions report [/mnt], a [tmpfs] one
    enumerated before an [ext4] one.  Excluding before deduplicating
    would keep the [ext4] partition; the source marks [/mnt] as seen at
    the [tmpfs] partition and then skips the [ext4] one, so the snapshot
    holds no entry for [/mnt], only the root entry of the fallback. *)
Lemma exclude_then_dedup_counterexample :
  let parts := [Host.part "tmpfs" "/mnt" "tmpfs"; Host.part "/dev/sdb1" "/mnt" "ext4"] in
  let os := Host.os_of (Host.with_partitions Host.linux parts) in
  mountpoints (exclude_then_dedup parts) = [lit "/mnt"]
  /\ disk_loop os parts tt = (Return [], tt)
  /\ exists r m,
      metrics os None {| status_code := None |} None tt
      = (Return (r, {| status_code := None |}), tt)
      /\ ApiResponse.metrics r = Some m
      /\ mounts (Metrics.disk m) = [lit "/"]
      /\ entries_for (lit "/mnt") (Metrics.disk m) = 0
      /\ mounts (Metrics.disk m) <> mountpoints (exclude_then_dedup parts).
Proof.
  intros parts os. split; [vm_compute; reflexivity|].
  split; [vm_compute; reflexivity|].
  eexists. eexists. split; [vm_compute; reflexivity|].
  split; [reflexivity|]. split; [vm_compute; reflexivity|].
  split; [vm_compute; reflexivity|]. vm_compute. discriminate.
Qed.

Lemma snapshot_disk_nonempty_witness :
  exists r m,
    metrics (Host.os_of Host.linux) None {| status_code := None |} None tt
    = (Return (r, {| status_code := None |}), tt)
    /\ ApiResponse.metrics r = Some m
    /\ Metrics.disk m <> [].
Proof.
  eexists. eexists. split; [vm_compute; reflexivity|]. split; [reflexivity|].
  eapply (snapshot_disk_nonempty (Host.os_of Host.linux) None
            {| status_code := None |} None tt);
    [vm_compute; reflexivity | reflexivity].
Defined.

Lemma pseudo_partition_yields_no_entry_witness :
  let p := Host.part "tmpfs" "/run" "tmpfs" in
  (fstype p ∈ pseudo_fstypes)
  /\ exists seen',
      disk_step (Host.os_of Host.linux) p (∅, []) tt = (Return (seen', []), tt).
Proof.
  intros p.
  assert (Hp : fstype p ∈ pseudo_fstypes) by (vm_compute; repeat constructor).
  split; [exact Hp|].
  apply (pseudo_partition_yields_no_entry (Host.os_of Host.linux) p Hp).
Defined.

(** C6 (as stated) fails: a [squashfs] partition mounted at ["/"] is
    skipped by the loop, which keeps nothing; the fallback then queries
    ["/"], and the snapshot holds an entry with the mount path of that
    partition, built from the usage of its own filesystem.  The same
    happens when an [ext4] partition is enumerated after it for ["/"]:
    the path was marked as seen at the [squashfs] partition. *)
Lemma pseudo_root_entry_counterexample :
  let p := Host.part "/dev/loop0" "/" "squashfs" in
  let q := Host.part "/dev/sda1" "/" "ext4" in
  let os := Host.os_of (Host.with_partitions Host.linux [p]) in
  let os' := Host.os_of (Host.with_partitions Host.linux [p; q]) in
  (fstype p ∈ pseudo_fstypes)
  /\ disk_loop os [p] tt = (Return [], tt)
  /\ (exists r m,
        metrics os None {| status_code := None |} None tt
        = (Return (r, {| status_code := None |}), tt)
        /\ ApiResponse.metrics r = Some m
        /\ Metrics.disk m = [DiskUsageItem_of (mountpoint p) Host.du0]
        /\ entries_for (mountpoint p) (Metrics.disk m) = 1)
  /\ (exists r m,
        metrics os' None {| status_code := None |} None tt
        = (Return (r, {| status_code := None |}), tt)
        /\ ApiResponse.metrics r = Some m
        /\ Metrics.disk m = [DiskUsageItem_of (mountpoint p) Host.du0]
        /\ entries_for (mountpoint p) (Metrics.disk m) = 1).
Proof.
  intros p q os os'.
  split; [vm_compute; repeat constructor|].
  split; [vm_compute; reflexivity|].
  split; (eexists; eexists; split; [vm_compute; reflexivity|];
          split; [reflexivity|]; split; vm_compute; reflexivity).
Qed.

End DiskFacts.

(** ** The responses of the endpoint *)

Module ApiFacts.
Import PyStr PyFloat Monad MonadFacts Api Spec DiskFacts.

(** *** The timestamp *)

Lemma strftime_ts_format tm :
  strftime ts_format tm
  = decimal (tm_year tm) ++ 45%N :: pad2 (tm_mon tm) ++ 45%N :: pad2 (tm_mday tm)
    ++ 84%N :: pad2 (tm_hour tm) ++ 58%N :: pad2 (tm_min tm)
    ++ 58%N :: pad2 (tm_sec tm) ++ [90%N].
Proof. reflexivity. Qed.

Lemma pad2_two_digits n : (0 <= n <= 99)%Z -> two_digits (pad2 n) = true.
Proof.
  intros Hn.
  assert (Hall : forallb (fun k => two_digits (pad2 (Z.of_nat k))) (seq 0 100) = true)
    by (vm_compute; reflexivity).
  rewrite forallb_forall in Hall.
  specialize (Hall (Z.to_nat n)). rewrite Z2Nat.id in Hall by lia.
  apply Hall, in_seq. lia.
Qed.

Lemma decimal_four_digits n : (1000 <= n <= 9999)%Z -> four_digits (decimal n) = true.
Proof.
  intros Hn.
  assert (Hall : forallb (fun k => four_digits (decimal (1000 + Z.of_nat k)))
                   (seq 0 (Z.to_nat 9000)) = true)
    by (vm_compute; reflexivity).
  rewrite forallb_forall in Hall.
  specialize (Hall (Z.to_nat (n - 1000))).
  replace (1000 + Z.of_nat (Z.to_nat (n - 1000)))%Z with n in Hall by lia.
  apply Hall, in_seq. lia.
Qed.

Lemma strftime_iso8601 tm :
  valid_tm tm -> iso8601_utc_seconds (strftime ts_format tm) = true.
Proof.
  intros (Hy & Hmo & Hd & Hh & Hmi & Hs). rewrite strftime_ts_format.
  pose proof (decimal_four_digits (tm_year tm) Hy) as Ey.
  pose proof (pad2_two_digits (tm_mon tm) ltac:(lia)) as Emo.
  pose proof (pad2_two_digits (tm_mday tm) ltac:(lia)) as Ed.
  pose proof (pad2_two_digits (tm_hour tm) ltac:(lia)) as Eh.
  pose proof (pad2_two_digits (tm_min tm) ltac:(lia)) as Emi.
  pose proof (pad2_two_digits (tm_sec tm) ltac:(lia)) as Es.
  destruct (decimal (tm_year tm)) as [|y1 [|y2 [|y3 [|y4 [|]]]]]; try discriminate.
  destruct (pad2 (tm_mon tm)) as [|a1 [|a2 [|]]]; try discriminate.
  destruct (pad2 (tm_mday tm)) as [|b1 [|b2 [|]]]; try discriminate.
  destruct (pad2 (tm_hour tm)) as [|c1 [|c2 [|]]]; try discriminate.
  destruct (pad2 (tm_min tm)) as [|d1 [|d2 [|]]]; try discriminate.
  destruct (pad2 (tm_sec tm)) as [|e1 [|e2 [|]]]; try discriminate.
  cbn in *.
  repeat match goal with
         | H : _ && _ = true |- _ => apply andb_true_iff in H as [? ?]
         end.
  repeat match goal with
         | H : is_digit _ = true |- _ => rewrite H; clear H
         end.
  reflexivity.
Qed.

Section Responses.
Context {World : Type} (os : OS World).

(** C8. Every response of [metrics] populates exactly one variant: a
    success carries a snapshot and no error message, a failure an error
    message and no snapshot.  In both the timestamp is there, and for a
    clock between the years 1000 and 9999 it reads
    [YYYY-MM-DDTHH:MM:SSZ]: UTC, ISO 8601, second precision, [Z] suffix. *)
Theorem response_one_variant_timestamp token response authorization w :
  (forall w0, valid_tm (time_gmtime os w0).1) ->
  exists r resp w',
    metrics os token response authorization w = (Return (r, resp), w')
    /\ one_variant r
    /\ (ApiResponse.ok r = true ->
        is_Some (ApiResponse.metrics r) /\ ApiResponse.error r = None)
    /\ (ApiResponse.ok r = false ->
        ApiResponse.metrics r = None /\ is_Some (ApiResponse.error r))
    /\ iso8601_utc_seconds (ApiResponse.ts r) = true.
Proof.
  intros Hclock.
  destruct (metrics_cases os token response authorization w)
    as [(r & w' & parts & items & m & Heq & R)
       |(e & w1 & tm & w' & _ & Htm & Heq)].
  - destruct R as [tm w1 w2 w3 w4 w5 w6 w7 _ _ _ _ Htm ->].
    eexists _, _, _. split; [exact Heq|].
    unfold one_variant.
    cbn [ApiResponse.ok ApiResponse.metrics ApiResponse.error ApiResponse.ts].
    assert (Hs : is_Some (Some m)) by (now exists m).
    split; [left; auto|]. split; [auto|]. split; [discriminate|].
    apply strftime_iso8601. specialize (Hclock w7). now rewrite Htm in Hclock.
  - eexists _, _, _. split; [exact Heq|].
    unfold one_variant.
    cbn [ApiResponse.ok ApiResponse.metrics ApiResponse.error ApiResponse.ts].
    assert (Hs : is_Some (Some (exn_str e))) by (now eexists).
    split; [right; auto|]. split; [discriminate|]. split; [auto|].
    apply strftime_iso8601. specialize (Hclock w1). now rewrite Htm in Hclock.
Qed.



End Responses.

Lemma response_one_variant_timestamp_witness :
  exists r resp w',
    metrics (Host.os_of Host.linux) None {| status_code := None |} None tt
    = (Return (r, resp), w')
    /\ one_variant r.
Proof.
  destruct (response_one_variant_timestamp (Host.os_of Host.linux) None
              {| status_code := None |} None tt) as (r & resp & w' & H & Hv & _).
  - intros []. cbn. unfold valid_tm. cbn. lia.
  - exists r, resp, w'. split; assumption.
Defined.


(** *** The end-to-end scenarios of the specification *)

Example scenario_no_secret :
  answer (metrics (Host.os_of Host.linux) None {| status_code := None |} None) tt
  = Some (true, None, true, false).
Proof. vm_compute. reflexivity. Qed.

Example scenario_bearer_accepted :
  answer (metrics (Host.os_of Host.linux) (Some (lit "abc123"))
            {| status_code := None |} (Some (lit "Bearer abc123"))) tt
  = Some (true, None, true, false).
Proof. vm_compute. reflexivity. Qed.

Example scenario_wrong_token :
  answer (metrics (Host.os_of Host.linux) (Some (lit "abc123"))
            {| status_code := None |} (Some (lit "Bearer wrong"))) tt
  = Some (false, Some 401%Z, false, true).
Proof. vm_compute. reflexivity. Qed.

Example scenario_wrong_scheme :
  answer (metrics (Host.os_of Host.linux) (Some (lit "abc123"))
            {| status_code := None |} (Some (lit "Basic abc123"))) tt
  = Some (false, Some 401%Z, false, true).
Proof. vm_compute. reflexivity. Qed.

Example scenario_memory_unavailable :
  answer (metrics (Host.os_of (Host.with_vm Host.linux
                                 (Raise (OtherException (lit "no memory statistics")))))
            None {| status_code := None |} None) tt
  = Some (false, Some 503%Z, false, true).
Proof. vm_compute. reflexivity. Qed.

(** C2 (the code departs from it). No secret is configured and the
    request carries no credential, so authentication succeeds; every
    usage query of the host, the fallback query of the root path
    included, is refused with [PermissionError].  The loop absorbs the
    refusals, the fallback does not, and the endpoint answers 401, the
    status of a rejected credential, where the failure of an operating
    system query calls for 503. *)
Theorem os_permission_error_answers_401 :
  let os := Host.os_of (Host.with_usage Host.linux (fun _ => Raise Host.denied)) in
  Auth._require_auth None None = Return tt
  /\ exists r,
      metrics os None {| status_code := None |} None tt
      = (Return (r, {| status_code := Some 401%Z |}), tt)
      /\ ApiResponse.ok r = false
      /\ ApiResponse.metrics r = None
      /\ ApiResponse.error r = Some (exn_str Host.denied).
Proof.
  intros os. split; [reflexivity|].
  eexists. split; [vm_compute; reflexivity|]. repeat split.
Qed.

End ApiFacts.

(** ** [_bytes_to_human] *)

Module HumanFacts.
Import PyStr PyFloat Human Spec.
Local Open Scope Z_scope.

(** *** Rounding to nearest, ties to even *)

Lemma rne_div_cases a b :
  0 < b ->
  exists q r, a = b * q + r /\ 0 <= r < b
              /\ (rne_div a b = q /\ 2 * r <= b \/ rne_div a b = q + 1 /\ b <= 2 * r).
Proof.
  intros Hb. exists (a / b), (a mod b).
  pose proof (Z.div_mod a b ltac:(lia)). pose proof (Z.mod_pos_bound a b Hb).
  split; [lia|]. split; [lia|]. unfold rne_div.
  destruct (b <? 2 * (a mod b)) eqn:E1; cbn [orb].
  - right. lia.
  - destruct (2 * (a mod b) =? b) eqn:E2; cbn [andb].
    + destruct (Z.odd (a / b)); [right|left]; lia.
    + left. lia.
Qed.

Lemma rne_div_exact q b : 0 < b -> rne_div (q * b) b = q.
Proof.
  intros Hb. unfold rne_div.
  rewrite Z.div_mul, Z.mod_mul by lia.
  assert ((b <? 2 * 0) = false) as -> by lia.
  assert ((2 * 0 =? b) = false) as -> by lia. reflexivity.
Qed.

Lemma rne_div_lower a b : 0 < b -> a / b <= rne_div a b.
Proof. intros Hb. unfold rne_div. destruct (_ || _); lia. Qed.

Lemma rne_div_nonneg a b : 0 <= a -> 0 < b -> 0 <= rne_div a b.
Proof.
  intros Ha Hb. pose proof (rne_div_lower a b Hb).
  pose proof (Z.div_pos a b Ha Hb). lia.
Qed.

Lemma rne_div_mono a a' b : 0 < b -> a <= a' -> rne_div a b <= rne_div a' b.
Proof.
  intros Hb Hle.
  destruct (Z.eq_dec (a / b) (a' / b)) as [Heq|Hne].
  - unfold rne_div. rewrite <- Heq.
    pose proof (Z.div_mod a b ltac:(lia)). pose proof (Z.div_mod a' b ltac:(lia)).
    assert (a mod b <= a' mod b) by (rewrite <- Heq in *; nia).
    destruct (b <? 2 * (a mod b)) eqn:E1; cbn [orb].
    + assert ((b <? 2 * (a' mod b)) = true) as -> by lia. cbn. lia.
    + destruct (2 * (a mod b) =? b) eqn:E2; cbn [andb].
      * destruct (b <? 2 * (a' mod b)) eqn:E3; cbn [orb];
          [destruct (Z.odd _); lia|].
        assert ((2 * (a' mod b) =? b) = true) as -> by lia. cbn. lia.
      * destruct (_ || _); lia.
  - pose proof (Z.div_le_mono a a' b Hb Hle).
    pose proof (rne_div_lower a' b Hb).
    assert (rne_div a b <= a / b + 1) by (unfold rne_div; destruct (_ || _); lia).
    lia.
Qed.

Lemma rne_div_scale a b c : 0 < b -> 0 < c -> rne_div (a * c) (b * c) = rne_div a b.
Proof.
  intros Hb Hc. unfold rne_div.
  rewrite Z.div_mul_cancel_r by lia.
  rewrite Z.mul_mod_distr_r by lia.
  replace (b * c <? 2 * (a mod b * c)) with (b <? 2 * (a mod b))
    by (apply Bool.eq_true_iff_eq; rewrite !Z.ltb_lt; nia).
  replace (2 * (a mod b * c) =? b * c) with (2 * (a mod b) =? b)
    by (apply Bool.eq_true_iff_eq; rewrite !Z.eqb_eq; nia).
  done.
Qed.

(** Rounding [a < 2^(p+k) - 2^(k-1)] by [2^k] does not reach [2^p]. *)
Lemma rne_div_below a P T :
  0 < P -> 0 <= a < T * (2 * P) - P -> rne_div a (2 * P) < T.
Proof.
  intros HP Ha.
  destruct (rne_div_cases a (2 * P) ltac:(lia)) as (q & r & Hqr & Hr & [[-> _]|[-> Hh]]);
    nia.
Qed.

(** *** Bit lengths and mantissas *)

Lemma bit_length_bounds a :
  0 < a -> 2 ^ (bit_length a - 1) <= a < 2 ^ bit_length a /\ 0 < bit_length a.
Proof.
  intros Ha. unfold bit_length. destruct (a =? 0) eqn:E; [lia|].
  pose proof (Z.log2_spec a Ha). pose proof (Z.log2_nonneg a).
  replace (Z.log2 a + 1 - 1) with (Z.log2 a) by lia.
  replace (Z.log2 a + 1) with (Z.succ (Z.log2 a)) by lia. lia.
Qed.

Lemma bit_length_unique a L : 0 < L -> 2 ^ (L - 1) <= a < 2 ^ L -> bit_length a = L.
Proof.
  intros HL Ha. assert (0 < a) by (pose proof (Z.pow_pos_nonneg 2 (L - 1)); lia).
  unfold bit_length. destruct (a =? 0) eqn:E; [lia|].
  rewrite (Z.log2_unique a (L - 1)); [lia|lia|].
  replace (Z.succ (L - 1)) with L by lia. done.
Qed.

Lemma digits2_pos_log2 m : Z.pos (digits2_pos m) = Z.log2 (Z.pos m) + 1.
Proof.
  induction m as [m IH|m IH|]; cbn [digits2_pos]; [| |done].
  - rewrite Pos2Z.inj_succ, IH.
    change (Z.pos m~1) with (2 * Z.pos m + 1).
    rewrite Z.log2_succ_double by lia. lia.
  - rewrite Pos2Z.inj_succ, IH.
    change (Z.pos m~0) with (2 * Z.pos m).
    rewrite Z.log2_double by lia. lia.
Qed.

Lemma normal_digits m : normal m -> digits2_pos m = 53%positive.
Proof.
  intros Hm. assert (Z.pos (digits2_pos m) = 53) as H; [|congruence].
  rewrite digits2_pos_log2. rewrite (Z.log2_unique (Z.pos m) 52); [done|lia|].
  exact Hm.
Qed.

(** *** [float(n)] *)

Lemma pow2_pos k : 0 < 2 ^ k \/ k < 0.
Proof. destruct (Z_lt_le_dec k 0); [right|left]; [lia | now apply Z.pow_pos_nonneg]. Qed.

Lemma pow2_split j k : 0 <= j -> 0 <= k -> 2 ^ (j + k) = 2 ^ j * 2 ^ k.
Proof. intros. now apply Z.pow_add_r. Qed.

Lemma round53_small a : 0 <= a < 2 ^ 53 -> round53 a = a.
Proof.
  intros Ha. unfold round53.
  destruct (Z.eq_dec a 0) as [->|Hne]; [reflexivity|].
  destruct (bit_length_bounds a ltac:(lia)) as [[Hlo _] Hpos].
  destruct (Z_lt_le_dec 53 (bit_length a)) as [Hbig|Hsmall].
  - assert (2 ^ 53 <= 2 ^ (bit_length a - 1)) by (apply Z.pow_le_mono_r; lia). lia.
  - destruct (bit_length a - 53 <=? 0) eqn:E; [done | lia].
Qed.

(** The value of a rounded integer lies between the powers of two around
    the integer itself. *)
Lemma round53_bounds a L :
  0 < L -> 2 ^ (L - 1) <= a < 2 ^ L -> 2 ^ (L - 1) <= round53 a <= 2 ^ L.
Proof.
  intros HL Ha. unfold round53. rewrite (bit_length_unique a L HL Ha).
  destruct (L - 53 <=? 0) eqn:E; [lia|].
  set (k := L - 53) in *. assert (0 < k) by lia.
  assert (Hk : 0 < 2 ^ k) by (apply Z.pow_pos_nonneg; lia).
  assert (HL1 : 2 ^ (L - 1) = 2 ^ 52 * 2 ^ k)
    by (replace (L - 1) with (52 + k) by lia; apply pow2_split; lia).
  assert (HL2 : 2 ^ L = 2 ^ 53 * 2 ^ k)
    by (replace L with (53 + k) at 1 by lia; apply pow2_split; lia).
  destruct (rne_div_cases a (2 ^ k) Hk) as (q & r & Hqr & Hr & Hcase).
  rewrite HL1, HL2 in *.
  assert (2 ^ 52 <= q < 2 ^ 53) by nia.
  destruct Hcase as [[-> _]|[-> _]]; nia.
Qed.

Lemma round53_mono a b : 0 <= a <= b -> round53 a <= round53 b.
Proof.
  intros [Ha Hab].
  destruct (Z.eq_dec a 0) as [->|Ha0].
  { destruct (Z.eq_dec b 0) as [->|Hb0]; [lia|].
    destruct (bit_length_bounds b ltac:(lia)) as [Hb HLb].
    pose proof (round53_bounds b _ HLb Hb).
    pose proof (Z.pow_pos_nonneg 2 (bit_length b - 1)).
    change (round53 0) with 0. lia. }
  destruct (bit_length_bounds a ltac:(lia)) as [Hba HLa].
  destruct (bit_length_bounds b ltac:(lia)) as [Hbb HLb].
  destruct (Z.eq_dec (bit_length a) (bit_length b)) as [Heq|Hne].
  - unfold round53. rewrite <- Heq.
    destruct (bit_length a - 53 <=? 0) eqn:E; [lia|].
    assert (Hk : 0 < 2 ^ (bit_length a - 53)) by (apply Z.pow_pos_nonneg; lia).
    pose proof (rne_div_mono a b _ Hk Hab). nia.
  - assert (bit_length a < bit_length b).
    { destruct (Z_lt_le_dec (bit_length a) (bit_length b)) as [|Hge]; [done|].
      assert (2 ^ bit_length b <= 2 ^ (bit_length a - 1))
        by (apply Z.pow_le_mono_r; lia). lia. }
    pose proof (round53_bounds a _ HLa Hba). pose proof (round53_bounds b _ HLb Hbb).
    assert (2 ^ bit_length a <= 2 ^ (bit_length b - 1))
      by (apply Z.pow_le_mono_r; lia). lia.
Qed.

Lemma float_limit_split : float_limit = 2 ^ 53 * (2 * 2 ^ 970) - 2 ^ 970.
Proof. reflexivity. Qed.

(** *** Shifting right with a round bit and a sticky bit *)

Lemma iter_pos_nat {A : Type} (f : A -> A) p :
  forall x, SpecFloat.iter_pos f p x = Nat.iter (Pos.to_nat p) f x.
Proof.
  induction p as [p IH|p IH|]; intros x; cbn [SpecFloat.iter_pos].
  - rewrite !IH, Pos2Nat.inj_xI.
    replace (S (2 * Pos.to_nat p)) with (Pos.to_nat p + S (Pos.to_nat p))%nat by lia.
    rewrite Nat.iter_add, Nat.iter_succ_r. reflexivity.
  - rewrite !IH, Pos2Nat.inj_xO.
    replace (2 * Pos.to_nat p)%nat with (Pos.to_nat p + Pos.to_nat p)%nat by lia.
    now rewrite Nat.iter_add.
  - reflexivity.
Qed.

Lemma shr_1_nonneg m r s :
  0 <= m ->
  shr_1 {| shr_m := m; shr_r := r; shr_s := s |}
  = {| shr_m := m / 2; shr_r := Z.odd m; shr_s := r || s |}.
Proof.
  intros Hm. rewrite <- Z.div2_div.
  destruct m as [|[p|p|]|p]; try reflexivity; lia.
Qed.

Lemma shr_iter m (k : nat) :
  0 <= m ->
  Nat.iter k shr_1 {| shr_m := m; shr_r := false; shr_s := false |}
  = {| shr_m := m / 2 ^ Z.of_nat k; shr_r := round_bit m k; shr_s := sticky_bit m k |}.
Proof.
  intros Hm. induction k as [|k IH].
  - cbn [Nat.iter round_bit sticky_bit]. now rewrite Z.div_1_r.
  - rewrite Nat.iter_succ, IH.
    assert (Hp : 0 < 2 ^ Z.of_nat k) by (apply Z.pow_pos_nonneg; lia).
    rewrite shr_1_nonneg by (apply Z.div_pos; lia).
    rewrite Z.div_div by lia.
    replace (2 ^ Z.of_nat k * 2) with (2 ^ Z.of_nat (S k))
      by (rewrite Nat2Z.inj_succ, Z.pow_succ_r by lia; ring).
    f_equal. cbn [round_bit sticky_bit].
    destruct k as [|k]; [cbn; now rewrite Z.mod_1_r|].
    cbn [round_bit sticky_bit].
    assert (Hq : 0 < 2 ^ Z.of_nat k) by (apply Z.pow_pos_nonneg; lia).
    replace (2 ^ Z.of_nat (S k)) with (2 ^ Z.of_nat k * 2)
      by (rewrite Nat2Z.inj_succ, Z.pow_succ_r by lia; ring).
    rewrite Z.rem_mul_r by lia.
    pose proof (Z.mod_pos_bound m (2 ^ Z.of_nat k) Hq).
    rewrite (Zmod_odd (m / 2 ^ Z.of_nat k)).
    destruct (Z.odd (m / 2 ^ Z.of_nat k)); cbn [orb].
    + symmetry. apply negb_true_iff, Z.eqb_neq. lia.
    + f_equal. f_equal. lia.
Qed.

Lemma round_nearest_even_rne m (k : nat) :
  0 <= m ->
  round_nearest_even (m / 2 ^ Z.of_nat (S k))
    (loc_of_shr_record
       {| shr_m := m / 2 ^ Z.of_nat (S k); shr_r := round_bit m (S k);
          shr_s := sticky_bit m (S k) |})
  = rne_div m (2 ^ Z.of_nat (S k)).
Proof.
  intros Hm. cbn [round_bit sticky_bit loc_of_shr_record].
  set (h := 2 ^ Z.of_nat k). assert (Hh : 0 < h) by (apply Z.pow_pos_nonneg; lia).
  assert (HS : 2 ^ Z.of_nat (S k) = h * 2)
    by (unfold h; rewrite Nat2Z.inj_succ, Z.pow_succ_r by lia; ring).
  rewrite HS. unfold rne_div.
  rewrite Z.rem_mul_r by lia.
  pose proof (Z.mod_pos_bound m h Hh) as Ht.
  rewrite (Zmod_odd (m / h)).
  set (q := m / (h * 2)).
  destruct (Z.odd (m / h)); destruct (m mod h =? 0) eqn:Et;
    cbn [negb round_nearest_even].
  - (* a tie *)
    assert ((h * 2 <? 2 * (m mod h + h * 1)) = false) as -> by lia.
    assert ((2 * (m mod h + h * 1) =? h * 2) = true) as -> by lia.
    cbn [orb andb]. rewrite <- Z.negb_odd. now destruct (Z.odd q).
  - assert ((h * 2 <? 2 * (m mod h + h * 1)) = true) as -> by lia.
    reflexivity.
  - assert ((h * 2 <? 2 * (m mod h + h * 0)) = false) as -> by lia.
    assert ((2 * (m mod h + h * 0) =? h * 2) = false) as -> by lia.
    reflexivity.
  - assert ((h * 2 <? 2 * (m mod h + h * 0)) = false) as -> by lia.
    assert ((2 * (m mod h + h * 0) =? h * 2) = false) as -> by lia.
    reflexivity.
Qed.

(** *** [binary_round] on an integer *)

Lemma digits2_pos_Z p : Z.pos (digits2_pos p) = bit_length (Z.pos p).
Proof. unfold bit_length. rewrite digits2_pos_log2. reflexivity. Qed.

Lemma pos_iter_xO p k : Z.pos (Pos.iter xO p k) = Z.pos p * 2 ^ Z.pos k.
Proof.
  rewrite <- Z.shiftl_mul_pow2 by lia. cbn [Z.shiftl].
  apply (Pos.iter_swap_gen _ _ Z.pos xO (Z.mul 2)). reflexivity.
Qed.

(** A mantissa of 53 bits at an exponent in range is kept as it is. *)
Lemma binary_round_aux_normal s m e :
  normal m -> -1074 <= e ->
  binary_round_aux 53 1024 s (Z.pos m) e loc_Exact
  = if e <=? 971 then S754_finite s m e else S754_infinity s.
Proof.
  intros Hm He. pose proof (normal_digits m Hm) as Hd.
  unfold binary_round_aux, shr_fexp, fexp, emin.
  cbn [shr_record_of_loc Zdigits2]. rewrite Hd.
  replace (Z.max (53 + e - 53) (3 - 1024 - 53) - e) with 0 by lia.
  cbn [shr shr_m loc_of_shr_record round_nearest_even Zdigits2]. rewrite Hd.
  replace (Z.max (53 + e - 53) (3 - 1024 - 53) - e) with 0 by lia.
  cbn [shr shr_m]. reflexivity.
Qed.

Lemma normal_bit_length m : normal m <-> bit_length (Z.pos m) = 53.
Proof.
  unfold normal. split.
  - intros Hm. apply bit_length_unique; [lia | exact Hm].
  - intros Hb. pose proof (bit_length_bounds (Z.pos m) ltac:(lia)) as [H _].
    rewrite Hb in H. exact H.
Qed.

(** [binary_round] of the integer [p], spelled out. *)
Lemma binary_round_int s p :
  let a := Z.pos p in
  let k := bit_length a - 53 in
  let m := if k <=? 0 then Z.shiftl a (- k) else rne_div a (2 ^ k) in
  let '(m, e) := if m =? 2 ^ 53 then (2 ^ 52, k + 1) else (m, k) in
  binary_round 53 1024 s p 0
  = if 971 <? e then S754_infinity s else S754_finite s (Z.to_pos m) e.
Proof.
  intros a k. cbv zeta.
  destruct (bit_length_bounds a ltac:(lia)) as [Hb HL].
  fold k. set (L := bit_length a) in *.
  unfold binary_round, shl_align, fexp, emin.
  rewrite digits2_pos_Z. fold a. fold L.
  replace (Z.max (L + 0 - 53) (3 - 1024 - 53) - 0) with k by lia.
  destruct (k <=? 0) eqn:Ek.
  - (* at most 53 bits: align to the left *)
    assert (Hsh : Z.shiftl a (- k) = a * 2 ^ (- k))
      by (rewrite Z.shiftl_mul_pow2 by lia; reflexivity).
    assert (Hp : 0 < 2 ^ (- k)) by (apply Z.pow_pos_nonneg; lia).
    assert (H52 : 2 ^ (L - 1) * 2 ^ (- k) = 2 ^ 52)
      by (rewrite <- pow2_split by lia; f_equal; lia).
    assert (H53 : 2 ^ L * 2 ^ (- k) = 2 ^ 53)
      by (rewrite <- pow2_split by lia; f_equal; lia).
    assert (Hm : 2 ^ 52 <= a * 2 ^ (- k) < 2 ^ 53) by nia.
    rewrite Hsh. destruct (a * 2 ^ (- k) =? 2 ^ 53) eqn:Ec; [lia|].
    assert ((971 <? k) = false) as -> by lia.
    destruct k as [|k'|k'] eqn:Ek'; [|lia|].
    + change (2 ^ (- 0)) with 1 in *. rewrite Z.mul_1_r in *.
      rewrite binary_round_aux_normal by (done || lia).
      cbn. reflexivity.
    + replace (Z.max (L + 0 - 53) (3 - 1024 - 53)) with (Z.neg k') by lia.
      assert (Hn : normal (Pos.iter xO p k')).
      { unfold normal. rewrite pos_iter_xO. exact Hm. }
      rewrite binary_round_aux_normal by (done || lia).
      assert ((Z.neg k' <=? 971) = true) as -> by lia.
      f_equal. change (- Z.neg k') with (Z.pos k') in *.
      apply Pos2Z.inj. rewrite pos_iter_xO, Z2Pos.id by lia. reflexivity.
  - (* more than 53 bits: shift right and round *)
    assert (Hk0 : 0 < k) by lia.
    destruct k as [|k'|k'] eqn:Ek'; [lia| |lia]. rewrite <- Ek' in *.
    fold a.
    assert (Hk : 0 < 2 ^ k) by (apply Z.pow_pos_nonneg; lia).
    assert (HL1 : 2 ^ (L - 1) = 2 ^ 52 * 2 ^ k)
      by (replace (L - 1) with (52 + k) by lia; apply pow2_split; lia).
    assert (HL2 : 2 ^ L = 2 ^ 53 * 2 ^ k)
      by (replace L with (53 + k) at 1 by lia; apply pow2_split; lia).
    assert (Hq : 2 ^ 52 <= rne_div a (2 ^ k) <= 2 ^ 53).
    { destruct (rne_div_cases a (2 ^ k) Hk) as (q & r & Hqr & Hr & Hcase).
      rewrite HL1, HL2 in Hb. assert (2 ^ 52 <= q < 2 ^ 53) by nia.
      destruct Hcase as [[-> _]|[-> _]]; lia. }
    change (binary_round_aux 53 1024 s a 0 loc_Exact)
      with (binary_round_aux 53 1024 s (Z.pos p) 0 loc_Exact).
    unfold binary_round_aux, shr_fexp, fexp, emin.
    cbn [shr_record_of_loc Zdigits2]. rewrite digits2_pos_Z. fold a. fold L.
    replace (Z.max (L + 0 - 53) (3 - 1024 - 53) - 0) with (Z.pos k') by lia.
    cbn [shr]. rewrite iter_pos_nat, shr_iter by lia.
    destruct (Pos2Nat.is_succ k') as [K HK]. rewrite HK.
    assert (HKk : Z.of_nat (S K) = k) by lia.
    cbn [shr_m]. rewrite round_nearest_even_rne by lia. rewrite HKk.
    replace (0 + Z.pos k') with k by lia.
    set (m' := rne_div a (2 ^ k)) in *.
    destruct (m' =? 2 ^ 53) eqn:Ec.
    + apply Z.eqb_eq in Ec. rewrite Ec.
      change (Zdigits2 (2 ^ 53)) with 54.
      replace (Z.max (54 + k - 53) (3 - 1024 - 53) - k) with 1 by lia.
      cbn [shr SpecFloat.iter_pos]. change (shr_1 _) with
        {| shr_m := 2 ^ 52; shr_r := false; shr_s := false |}.
      cbn [shr_m]. change (2 ^ 52) with (Z.pos (2 ^ 52)) at 1. cbv iota.
      destruct (971 <? k + 1) eqn:Eo.
      * assert ((k + 1 <=? 1024 - 53) = false) as -> by lia. reflexivity.
      * assert ((k + 1 <=? 1024 - 53) = true) as -> by lia. reflexivity.
    + apply Z.eqb_neq in Ec.
      destruct m' as [|mp|mp] eqn:Em'; [lia| |lia].
      cbn [Zdigits2]. rewrite digits2_pos_Z.
      rewrite (bit_length_unique (Z.pos mp) 53) by lia.
      replace (Z.max (53 + k - 53) (3 - 1024 - 53) - k) with 0 by lia.
      cbn [shr shr_m]. rewrite Pos2Z.id.
      destruct (971 <? k) eqn:Eo.
      * assert ((k <=? 1024 - 53) = false) as -> by lia. reflexivity.
      * assert ((k <=? 1024 - 53) = true) as -> by lia. reflexivity.
Qed.

(** [float(n)] is the spelled-out rounding. *)
Lemma float_of_int_nearest n : float_of_int n = nearest_float n.
Proof.
  unfold float_of_int, nearest_float, binary_normalize, prec, emax.
  destruct n as [|p|p].
  - reflexivity.
  - pose proof (binary_round_int false p) as H. cbv zeta in H.
    change (Z.pos p =? 0) with false. change (Z.abs (Z.pos p)) with (Z.pos p).
    change (Z.pos p <? 0) with false. cbv iota.
    change (2 ^ (53 - 1)) with (2 ^ 52). change (1024 - 53) with 971.
    destruct (if _ =? 2 ^ 53 then _ else _) as [m e].
    rewrite H. now destruct (971 <? e).
  - pose proof (binary_round_int true p) as H. cbv zeta in H.
    change (Z.neg p =? 0) with false. change (Z.abs (Z.neg p)) with (Z.pos p).
    change (Z.neg p <? 0) with true. cbv iota.
    change (2 ^ (53 - 1)) with (2 ^ 52). change (1024 - 53) with 971.
    destruct (if _ =? 2 ^ 53 then _ else _) as [m e].
    rewrite H. now destruct (971 <? e).
Qed.

Lemma float_of_int_spec n :
  n <> 0 -> float_of_pos (Z.abs n) (n <? 0) (float_of_int n).
Proof.
  intros Hn. rewrite float_of_int_nearest. unfold nearest_float.
  destruct (n =? 0) eqn:E0; [lia|].
  set (a := Z.abs n). assert (Ha : 0 < a) by lia.
  destruct (bit_length_bounds a Ha) as [Hb HL].
  set (L := bit_length a) in *. unfold prec, emax.
  destruct (L - 53 <=? 0) eqn:Ek.
  - (* at most 53 bits: the conversion is exact *)
    assert (Hsh : Z.shiftl a (- (L - 53)) = a * 2 ^ (53 - L))
      by (rewrite Z.shiftl_mul_pow2 by lia; f_equal; f_equal; lia).
    rewrite Hsh.
    assert (Hp : 0 < 2 ^ (53 - L)) by (apply Z.pow_pos_nonneg; lia).
    assert (H52 : 2 ^ (L - 1) * 2 ^ (53 - L) = 2 ^ 52)
      by (rewrite <- pow2_split by lia; f_equal; lia).
    assert (H53 : 2 ^ L * 2 ^ (53 - L) = 2 ^ 53)
      by (rewrite <- pow2_split by lia; f_equal; lia).
    assert (Hm : 2 ^ 52 <= a * 2 ^ (53 - L) < 2 ^ 53) by nia.
    destruct (a * 2 ^ (53 - L) =? 2 ^ 53) eqn:Ec; [lia|].
    destruct (1024 - 53 <? L - 53) eqn:Eo; [lia|].
    apply float_finite.
    + unfold normal. rewrite Z2Pos.id by lia. exact Hm.
    + lia.
    + rewrite Z2Pos.id by lia. rewrite (round53_small a).
      * replace (L - 53 + 52) with (L - 1) by lia.
        rewrite <- H52. ring.
      * assert (2 ^ L <= 2 ^ 53) by (apply Z.pow_le_mono_r; lia). lia.
    + assert (2 ^ L <= 2 ^ 53) by (apply Z.pow_le_mono_r; lia).
      assert (2 ^ 53 < float_limit) by reflexivity. lia.
  - (* more than 53 bits: round *)
    set (k := L - 53) in *. assert (Hk0 : 0 < k) by lia.
    assert (Hk : 0 < 2 ^ k) by (apply Z.pow_pos_nonneg; lia).
    assert (HL1 : 2 ^ (L - 1) = 2 ^ 52 * 2 ^ k)
      by (replace (L - 1) with (52 + k) by lia; apply pow2_split; lia).
    assert (HL2 : 2 ^ L = 2 ^ 53 * 2 ^ k)
      by (replace L with (53 + k) at 1 by lia; apply pow2_split; lia).
    assert (Hround : round53 a = rne_div a (2 ^ k) * 2 ^ k).
    { unfold round53. fold L. fold k. now rewrite Ek. }
    assert (Hq : 2 ^ 52 <= rne_div a (2 ^ k) <= 2 ^ 53).
    { destruct (rne_div_cases a (2 ^ k) Hk) as (q & r & Hqr & Hr & Hcase).
      rewrite HL1, HL2 in Hb. assert (2 ^ 52 <= q < 2 ^ 53) by nia.
      destruct Hcase as [[-> _]|[-> _]]; lia. }
    assert (Hlimit : 971 < k -> float_limit <= a).
    { intros Hbig. assert (2 ^ 1024 <= 2 ^ (L - 1)) by (apply Z.pow_le_mono_r; lia).
      assert (float_limit < 2 ^ 1024) by reflexivity. lia. }
    assert (Hbelow : k <= 971 -> a < 2 ^ 1024).
    { intros Hsmall. assert (2 ^ L <= 2 ^ 1024) by (apply Z.pow_le_mono_r; lia). lia. }
    assert (Hcarry : k = 971 -> (rne_div a (2 ^ k) = 2 ^ 53 <-> float_limit <= a)).
    { intros ->. change (2 ^ 971) with (2 * 2 ^ 970) in *.
      rewrite float_limit_split. split.
      - intros Hc. destruct (Z_lt_le_dec a (2 ^ 53 * (2 * 2 ^ 970) - 2 ^ 970)) as [Hlt|]; [|done].
        pose proof (rne_div_below a (2 ^ 970) (2 ^ 53) ltac:(done) ltac:(lia)). lia.
      - intros Hge.
        destruct (rne_div_cases a (2 * 2 ^ 970) ltac:(done))
          as (q & r & Hqr & Hr & Hcase).
        assert (H970 : 0 < 2 ^ 970) by done.
        rewrite HL2 in Hb.
        assert (Hq53 : q = 2 ^ 53 - 1) by nia.
        destruct Hcase as [[Hc Hh]|[-> _]]; [|lia].
        exfalso. rewrite Hq53 in Hqr, Hc.
        assert (Hdiv : a / (2 * 2 ^ 970) = 2 ^ 53 - 1)
          by (symmetry; apply (Z.div_unique a (2 * 2 ^ 970) (2 ^ 53 - 1) r); lia).
        assert (Hmod : a mod (2 * 2 ^ 970) = r)
          by (symmetry; apply (Z.mod_unique a (2 * 2 ^ 970) (2 ^ 53 - 1) r); lia).
        assert (Hr' : r = 2 ^ 970) by nia.
        unfold rne_div in Hc. cbv zeta in Hc. rewrite Hdiv, Hmod, Hr' in Hc.
        rewrite Z.eqb_refl in Hc. change (Z.odd (2 ^ 53 - 1)) with true in Hc.
        cbn [andb] in Hc. rewrite orb_true_r in Hc. lia. }
    destruct (rne_div a (2 ^ k) =? 2 ^ 53) eqn:Ec.
    + (* the rounding carries into a 54th bit *)
      apply Z.eqb_eq in Ec.
      destruct (1024 - 53 <? k + 1) eqn:Eo.
      * apply float_overflow.
        destruct (Z.eq_dec k 971) as [Hk971|]; [now apply Hcarry | apply Hlimit; lia].
      * change (Z.to_pos (2 ^ (53 - 1))) with (Z.to_pos (2 ^ 52)).
        apply float_finite.
        -- unfold normal. rewrite Z2Pos.id by done. split; [lia | reflexivity].
        -- lia.
        -- rewrite Z2Pos.id by done. rewrite Hround, Ec.
           replace (k + 1 + 52) with (1 + k + 52) by lia.
           rewrite !pow2_split by lia. change (2 ^ 53) with (2 ^ 52 * 2 ^ 1). ring.
        -- assert (2 ^ L <= 2 ^ 1023) by (apply Z.pow_le_mono_r; lia).
           assert (2 ^ 1023 < float_limit) by reflexivity. lia.
    + apply Z.eqb_neq in Ec.
      destruct (1024 - 53 <? k) eqn:Eo.
      * apply float_overflow, Hlimit. lia.
      * apply float_finite.
        -- unfold normal. rewrite Z2Pos.id by lia. lia.
        -- lia.
        -- rewrite Z2Pos.id by lia. rewrite Hround.
           rewrite pow2_split by lia. ring.
        -- destruct (Z.eq_dec k 971) as [Hk971|].
           ++ destruct (Z_lt_le_dec a float_limit) as [|Hge]; [done|].
              apply Hcarry in Hge; [lia | done].
           ++ assert (2 ^ L <= 2 ^ 1023) by (apply Z.pow_le_mono_r; lia).
              assert (2 ^ 1023 < float_limit) by reflexivity. lia.
Qed.

(** *** Comparing with, and dividing by, [1024.0] *)

Lemma normal_f1024 : normal (2 ^ 52).
Proof. unfold normal. split; [reflexivity | reflexivity]. Qed.

Lemma ge_f1024 m e :
  normal m -> ge (S754_finite false m e) f1024 = (-42 <=? e).
Proof.
  intros Hm. unfold ge, SFleb, f1024, SFcompare.
  destruct (Z.compare_spec (-42) e) as [<-|Hlt|Hgt].
  - rewrite Pos.compare_cont_spec. cbn [Pos.switch_Eq].
    destruct (Pos.compare_spec (2 ^ 52) m) as [?|?|Hc]; [reflexivity..|].
    unfold normal in Hm. change (Z.pos (2 ^ 52)) with (2 ^ 52) in *. lia.
  - symmetry. apply Z.leb_le. lia.
  - symmetry. apply Z.leb_gt. lia.
Qed.

Lemma ge_f1024_negative m e : ge (S754_finite true m e) f1024 = false.
Proof. reflexivity. Qed.

Lemma ge_f1024_zero s : ge (S754_zero s) f1024 = false.
Proof. reflexivity. Qed.

(** Dividing a number with a full mantissa by [1024.0] lowers the
    exponent by ten and rounds nothing. *)
Lemma truediv_f1024 s m e :
  normal m -> -1063 <= e <= 981 ->
  truediv (S754_finite s m e) f1024 = S754_finite s m (e - 10).
Proof.
  intros Hm He. pose proof (normal_digits m Hm) as Hd.
  unfold truediv, f1024, SFdiv, SFdiv_core_binary, prec, emax.
  cbn [Zdigits2]. rewrite Hd.
  change (digits2_pos (2 ^ 52)) with 53%positive.
  replace (53 + e - (53 + -42)) with (e + 42) by lia.
  unfold fexp, emin.
  replace (Z.min (Z.max (e + 42 - 53) (3 - 1024 - 53)) (e - -42)) with (e - 11) by lia.
  replace (e - -42 - (e - 11)) with 53 by lia.
  rewrite Z.shiftl_mul_pow2 by lia.
  change (Z.pos (2 ^ 52)) with (2 ^ 52).
  assert (Hdiv : Z.div_eucl (Z.pos m * 2 ^ 53) (2 ^ 52) = (Z.pos m~0, 0)).
  { pose proof (Z.div_eucl_eq (Z.pos m * 2 ^ 53) (2 ^ 52) ltac:(lia)) as Heq.
    pose proof (Z.mod_pos_bound (Z.pos m * 2 ^ 53) (2 ^ 52) ltac:(lia)) as Hr.
    unfold Z.modulo in Hr.
    destruct (Z.div_eucl (Z.pos m * 2 ^ 53) (2 ^ 52)) as [q r].
    change (2 ^ 53) with (2 * 2 ^ 52) in Heq.
    change (Z.pos m~0) with (2 * Z.pos m).
    assert (r = 0) by lia. f_equal; lia. }
  rewrite Hdiv. unfold binary_round_aux, shr_fexp, fexp, emin.
  change (new_location (2 ^ 52) 0) with loc_Exact.
  cbn [shr_record_of_loc Zdigits2].
  change (digits2_pos m~0) with (Pos.succ (digits2_pos m)).
  rewrite Hd. change (Z.pos (Pos.succ 53)) with 54.
  replace (Z.max (54 + (e - 11) - 53) (3 - 1024 - 53) - (e - 11)) with 1 by lia.
  cbn [shr SpecFloat.iter_pos shr_1 fst snd shr_m loc_of_shr_record orb round_nearest_even
       shr_record_of_loc Zdigits2].
  rewrite Hd.
  replace (Z.max (53 + (e - 11 + 1) - 53) (3 - 1024 - 53) - (e - 11 + 1)) with 0 by lia.
  cbn [shr shr_m].
  replace (e - 11 + 1) with (e - 10) by lia.
  destruct (e - 10 <=? 1024 - 53) eqn:E; [|lia].
  now destruct s.
Qed.

(** *** The loop *)

Lemma loop_cond_finite m e i :
  normal m ->
  loop_cond (S754_finite false m e, i) = (-42 <=? e) && (i <? 5)%nat.
Proof. intros Hm. unfold loop_cond. cbn [fst snd]. now rewrite ge_f1024. Qed.

(** From a positive number with a full mantissa the loop divides [j]
    times: it stops at the first exponent below that of [1024.0], or at
    the last unit. *)
Lemma while_scaled fuel : forall (i : nat) m e,
  normal m -> -52 <= e <= 971 -> (i <= 5)%nat -> (5 - i <= fuel)%nat ->
  exists j : nat,
    while fuel loop_cond loop_body (S754_finite false m e, i)
    = Some (S754_finite false m (e - 10 * Z.of_nat j), (i + j)%nat)
    /\ (i + j <= 5)%nat
    /\ (e - 10 * Z.of_nat j < -42 \/ (i + j = 5)%nat)
    /\ ((0 < j)%nat -> -42 <= e - 10 * (Z.of_nat j - 1)).
Proof.
  induction fuel as [|fuel IH]; intros i m e Hm He Hi Hfuel.
  - assert (i = 5%nat) as -> by lia. exists 0%nat.
    cbn [while]. rewrite loop_cond_finite by done.
    rewrite andb_false_r. replace (e - 10 * Z.of_nat 0) with e by lia.
    split; [repeat (f_equal; try lia)|]. repeat split; lia.
  - cbn [while]. rewrite loop_cond_finite by done.
    destruct (-42 <=? e) eqn:Ee; cbn [andb].
    + destruct (i <? 5)%nat eqn:Ei.
      * apply Nat.ltb_lt in Ei. unfold loop_body at 2. cbn [fst snd].
        rewrite truediv_f1024 by (done || lia).
        destruct (IH (i + 1)%nat m (e - 10) Hm ltac:(lia) ltac:(lia) ltac:(lia))
          as (j & Hrun & Hle & Hstop & Hprev).
        exists (S j). rewrite Hrun.
        split; [repeat (f_equal; try lia)|]. split; [lia|]. split; [lia|].
        intros _. destruct j; lia.
      * apply Nat.ltb_ge in Ei. exists 0%nat.
        replace (e - 10 * Z.of_nat 0) with e by lia.
        split; [repeat (f_equal; try lia)|]. repeat split; lia.
    + exists 0%nat. replace (e - 10 * Z.of_nat 0) with e by lia.
      split; [repeat (f_equal; try lia)|]. repeat split; lia.
Qed.

Lemma while_stops fuel x :
  ge x f1024 = false -> while fuel loop_cond loop_body (x, 0%nat) = Some (x, 0%nat).
Proof.
  intros Hx. destruct fuel; cbn [while]; unfold loop_cond; cbn [fst snd];
    now rewrite Hx.
Qed.

(** *** The value that is printed *)

Lemma round53_ge a T : 0 <= a -> T <= 2 ^ 53 -> T <= round53 a <-> T <= a.
Proof.
  intros Ha HT. destruct (Z_lt_le_dec a (2 ^ 53)) as [Hs|Hb].
  - now rewrite round53_small by lia.
  - destruct (bit_length_bounds a ltac:(lia)) as [Hab HL].
    pose proof (round53_bounds a _ HL Hab) as [Hr _].
    assert (2 ^ 53 <= 2 ^ (bit_length a - 1)).
    { apply Z.pow_le_mono_r; [lia|].
      destruct (Z_lt_le_dec (bit_length a) 54) as [Hlt|]; [|lia].
      assert (2 ^ bit_length a <= 2 ^ 53) by (apply Z.pow_le_mono_r; lia). lia. }
    lia.
Qed.

Lemma tenths_scaled m e0 R (j : nat) :
  -52 <= e0 -> Z.pos m * 2 ^ (e0 + 52) = R * 2 ^ 52 ->
  tenths m (e0 - 10 * Z.of_nat j) = rne_div (10 * R) (2 ^ (10 * Z.of_nat j)).
Proof.
  intros He0 Hval. unfold tenths.
  set (J := 10 * Z.of_nat j). assert (HJ : 0 <= J) by lia.
  assert (HpJ : 0 < 2 ^ J) by (apply Z.pow_pos_nonneg; lia).
  destruct (Z_lt_le_dec e0 0) as [Hneg|Hpos].
  - (* the integer has fewer than 53 bits *)
    assert (Hp : 0 < 2 ^ (- e0)) by (apply Z.pow_pos_nonneg; lia).
    assert (Hm : Z.pos m = R * 2 ^ (- e0)).
    { assert (H52 : 2 ^ 52 = 2 ^ (e0 + 52) * 2 ^ (- e0))
        by (rewrite <- pow2_split by lia; f_equal; lia).
      assert (0 < 2 ^ (e0 + 52)) by (apply Z.pow_pos_nonneg; lia).
      rewrite H52 in Hval. nia. }
    destruct (0 <=? e0 - J) eqn:E; [lia|].
    replace (- (e0 - J)) with (J + - e0) by lia.
    rewrite pow2_split by lia. rewrite Hm.
    replace (10 * (R * 2 ^ (- e0))) with (10 * R * 2 ^ (- e0)) by ring.
    now apply rne_div_scale.
  - assert (HR : R = Z.pos m * 2 ^ e0).
    { rewrite pow2_split in Hval by lia. lia. }
    destruct (0 <=? e0 - J) eqn:E.
    + replace e0 with ((e0 - J) + J) in HR by lia.
      rewrite pow2_split in HR by lia. rewrite HR.
      replace (10 * (Z.pos m * (2 ^ (e0 - J) * 2 ^ J)))
        with (10 * Z.pos m * 2 ^ (e0 - J) * 2 ^ J) by ring.
      now rewrite rne_div_exact.
    + assert (Hp : 0 < 2 ^ e0) by (apply Z.pow_pos_nonneg; lia).
      replace J with (- (e0 - J) + e0) at 2 by lia.
      rewrite pow2_split by lia. rewrite HR.
      replace (10 * (Z.pos m * 2 ^ e0)) with (10 * Z.pos m * 2 ^ e0) by ring.
      symmetry. apply rne_div_scale; [apply Z.pow_pos_nonneg|]; lia.
Qed.

Lemma pow1024 (j : nat) : 1024 ^ Z.of_nat j = 2 ^ (10 * Z.of_nat j).
Proof. rewrite Z.pow_mul_r by lia. reflexivity. Qed.

Lemma tier_of_le n : (tier_of n <= 5)%nat.
Proof.
  unfold tier_of.
  destruct (n <? 1024); [lia|]. destruct (n <? 1024 ^ 2); [lia|].
  destruct (n <? 1024 ^ 3); [lia|]. destruct (n <? 1024 ^ 4); [lia|].
  destruct (n <? 1024 ^ 5); lia.
Qed.

(** A positive integer: the loop ends in the tier of the integer, with
    the rounded integer divided by the power of 1024 of that tier. *)
Lemma scaled_positive fuel n :
  (5 <= fuel)%nat -> 0 < n < float_limit ->
  exists m e,
    scaled fuel n = Some (Return (S754_finite false m e, tier_of n))
    /\ tenths m e = rne_div (10 * round53 n) (1024 ^ Z.of_nat (tier_of n)).
Proof.
  intros Hfuel Hn. unfold scaled.
  pose proof (float_of_int_spec n ltac:(lia)) as Hf.
  rewrite Z.abs_eq in Hf by lia.
  assert ((n <? 0) = false) as Hs by lia. rewrite Hs in Hf.
  inversion Hf as [m e0 Hm He0 Hval Hlim Heq|Hlim Heq]; [|lia].
  destruct (while_scaled fuel 0 m e0 Hm He0 ltac:(lia) ltac:(lia))
    as (j & Hrun & Hj & Hstop & Hprev).
  rewrite Hrun. cbn [fmap option_fmap option_map Nat.add].
  assert (Hp : 0 < 2 ^ (e0 + 52)) by (apply Z.pow_pos_nonneg; lia).
  assert (HR : 2 ^ (e0 + 52) <= round53 n < 2 * 2 ^ (e0 + 52)).
  { unfold normal in Hm. change (2 ^ 53) with (2 * 2 ^ 52) in Hm. nia. }
  assert (Hlow : forall t, 0 <= t <= 53 -> t <= e0 + 52 -> 2 ^ t <= n).
  { intros t Ht Hle. apply (round53_ge n (2 ^ t)); [lia| |].
    - apply Z.pow_le_mono_r; lia.
    - assert (2 ^ t <= 2 ^ (e0 + 52)) by (apply Z.pow_le_mono_r; lia). lia. }
  assert (Hhigh : forall t, 0 <= t <= 53 -> e0 + 53 <= t -> n < 2 ^ t).
  { intros t Ht Hle. destruct (Z_lt_le_dec n (2 ^ t)) as [|Hge]; [done|].
    apply (round53_ge n (2 ^ t)) in Hge; [|lia|apply Z.pow_le_mono_r; lia].
    assert (2 ^ (e0 + 53) <= 2 ^ t) by (apply Z.pow_le_mono_r; lia).
    assert (2 ^ (e0 + 53) = 2 * 2 ^ (e0 + 52))
      by (replace (e0 + 53) with (1 + (e0 + 52)) by lia;
          rewrite pow2_split by lia; reflexivity).
    lia. }
  assert (Htier : tier_of n = j).
  { unfold tier_of.
    change (1024 ^ 2) with (2 ^ 20). change (1024 ^ 3) with (2 ^ 30).
    change (1024 ^ 4) with (2 ^ 40). change (1024 ^ 5) with (2 ^ 50).
    change 1024 with (2 ^ 10).
    destruct j as [|[|[|[|[|[|j]]]]]]; [..|lia].
    - pose proof (Hhigh 10 ltac:(lia) ltac:(lia)).
      destruct (n <? 2 ^ 10) eqn:E; [done|lia].
    - pose proof (Hlow 10 ltac:(lia) ltac:(lia)).
      pose proof (Hhigh 20 ltac:(lia) ltac:(lia)).
      destruct (n <? 2 ^ 10) eqn:E1; [lia|].
      destruct (n <? 2 ^ 20) eqn:E2; [done|lia].
    - pose proof (Hlow 20 ltac:(lia) ltac:(lia)).
      pose proof (Hhigh 30 ltac:(lia) ltac:(lia)).
      assert (2 ^ 10 < 2 ^ 20) by reflexivity.
      destruct (n <? 2 ^ 10) eqn:E1; [lia|].
      destruct (n <? 2 ^ 20) eqn:E2; [lia|].
      destruct (n <? 2 ^ 30) eqn:E3; [done|lia].
    - pose proof (Hlow 30 ltac:(lia) ltac:(lia)).
      pose proof (Hhigh 40 ltac:(lia) ltac:(lia)).
      assert (2 ^ 10 < 2 ^ 20) by reflexivity.
      assert (2 ^ 20 < 2 ^ 30) by reflexivity.
      destruct (n <? 2 ^ 10) eqn:E1; [lia|].
      destruct (n <? 2 ^ 20) eqn:E2; [lia|].
      destruct (n <? 2 ^ 30) eqn:E3; [lia|].
      destruct (n <? 2 ^ 40) eqn:E4; [done|lia].
    - pose proof (Hlow 40 ltac:(lia) ltac:(lia)).
      pose proof (Hhigh 50 ltac:(lia) ltac:(lia)).
      assert (2 ^ 10 < 2 ^ 20) by reflexivity.
      assert (2 ^ 20 < 2 ^ 30) by reflexivity.
      assert (2 ^ 30 < 2 ^ 40) by reflexivity.
      destruct (n <? 2 ^ 10) eqn:E1; [lia|].
      destruct (n <? 2 ^ 20) eqn:E2; [lia|].
      destruct (n <? 2 ^ 30) eqn:E3; [lia|].
      destruct (n <? 2 ^ 40) eqn:E4; [lia|].
      destruct (n <? 2 ^ 50) eqn:E5; [done|lia].
    - pose proof (Hlow 50 ltac:(lia) ltac:(lia)).
      assert (2 ^ 10 < 2 ^ 20) by reflexivity.
      assert (2 ^ 20 < 2 ^ 30) by reflexivity.
      assert (2 ^ 30 < 2 ^ 40) by reflexivity.
      assert (2 ^ 40 < 2 ^ 50) by reflexivity.
      destruct (n <? 2 ^ 10) eqn:E1; [lia|].
      destruct (n <? 2 ^ 20) eqn:E2; [lia|].
      destruct (n <? 2 ^ 30) eqn:E3; [lia|].
      destruct (n <? 2 ^ 40) eqn:E4; [lia|].
      destruct (n <? 2 ^ 50) eqn:E5; [lia|done]. }
  exists m, (e0 - 10 * Z.of_nat j). rewrite Htier. split; [done|].
  rewrite pow1024. apply tenths_scaled; [lia | done].
Qed.

(** A negative integer: the loop does not run. *)
Lemma scaled_negative fuel n :
  n < 0 -> - n < float_limit ->
  exists m e,
    scaled fuel n = Some (Return (S754_finite true m e, 0%nat))
    /\ tenths m e = 10 * round53 (- n).
Proof.
  intros Hn Hlim. unfold scaled.
  pose proof (float_of_int_spec n ltac:(lia)) as Hf.
  rewrite Z.abs_neq in Hf by lia.
  assert ((n <? 0) = true) as Hs by lia. rewrite Hs in Hf.
  inversion Hf as [m e0 Hm He0 Hval _ Heq|Hge Heq]; [|lia].
  rewrite while_stops by apply ge_f1024_negative.
  exists m, e0. split; [done|].
  replace e0 with (e0 - 10 * Z.of_nat 0) by lia.
  rewrite (tenths_scaled m e0 (round53 (- n)) 0) by (lia || done).
  change (2 ^ (10 * Z.of_nat 0)) with 1.
  replace (10 * round53 (- n)) with (10 * round53 (- n) * 1) at 1 by lia.
  now apply rne_div_exact.
Qed.

Lemma scaled_overflow fuel n :
  float_limit <= Z.abs n ->
  scaled fuel n
  = Some (Raise (OverflowError (lit "int too large to convert to float"))).
Proof.
  intros Hlim. unfold scaled.
  assert (n <> 0) by (assert (0 < float_limit) by reflexivity; lia).
  pose proof (float_of_int_spec n ltac:(done)) as Hf.
  inversion Hf as [m e0 Hm He0 Hval Hlt Heq|Hge Heq]; [lia|done].
Qed.

(** The state at the [return], for every integer [float] converts. *)
Lemma scaled_spec fuel n :
  (5 <= fuel)%nat -> Z.abs n < float_limit ->
  exists x,
    scaled fuel n = Some (Return (x, tier_of n))
    /\ shown x = Z.sgn n * rne_div (10 * round53 (Z.abs n)) (1024 ^ Z.of_nat (tier_of n))
    /\ (x = S754_zero false \/ exists s m e, x = S754_finite s m e).
Proof.
  intros Hfuel Hlim. destruct (Z.lt_trichotomy n 0) as [Hneg|[->|Hpos]].
  - destruct (scaled_negative fuel n Hneg ltac:(lia)) as (m & e & Hrun & Ht).
    assert (tier_of n = 0%nat) as -> by (unfold tier_of; destruct (n <? 1024) eqn:E; [done|lia]).
    exists (S754_finite true m e). split; [done|]. split; [|eauto].
    cbn [shown cond_Zopp]. rewrite Ht, Z.abs_neq by lia.
    change (1024 ^ Z.of_nat 0) with 1.
    replace (10 * round53 (- n)) with (10 * round53 (- n) * 1) at 2 by lia.
    rewrite rne_div_exact by lia. rewrite Z.sgn_neg by lia. lia.
  - exists (S754_zero false). split; [|split; [reflexivity | now left]].
    unfold scaled. change (float_of_int 0) with (Return (S754_zero false)).
    cbv beta iota. now rewrite while_stops by apply ge_f1024_zero.
  - destruct (scaled_positive fuel n Hfuel ltac:(lia)) as (m & e & Hrun & Ht).
    exists (S754_finite false m e). split; [done|]. split; [|eauto].
    cbn [shown cond_Zopp]. rewrite Ht, Z.abs_eq, Z.sgn_pos by lia. lia.
Qed.

(** *** Reading the text back *)

Lemma read_uint_uint_str d rest :
  (forall c rest', rest = c :: rest' -> digit_of c = None) ->
  read_uint (uint_str d ++ rest) = (d, rest).
Proof.
  intros Hrest. induction d as [|d IH|d IH|d IH|d IH|d IH|d IH|d IH|d IH|d IH|d IH];
    cbn [uint_str app read_uint];
    try (change (digit_of 48) with (Some Decimal.D0));
    try (change (digit_of 49) with (Some Decimal.D1));
    try (change (digit_of 50) with (Some Decimal.D2));
    try (change (digit_of 51) with (Some Decimal.D3));
    try (change (digit_of 52) with (Some Decimal.D4));
    try (change (digit_of 53) with (Some Decimal.D5));
    try (change (digit_of 54) with (Some Decimal.D6));
    try (change (digit_of 55) with (Some Decimal.D7));
    try (change (digit_of 56) with (Some Decimal.D8));
    try (change (digit_of 57) with (Some Decimal.D9));
    try (now rewrite IH).
  destruct rest as [|c rest']; [reflexivity|].
  cbn [read_uint]. now rewrite (Hrest c rest').
Qed.

Lemma to_uint_nonnil k : N.to_uint k <> Decimal.Nil.
Proof. destruct k; [discriminate | apply DecimalPos.Unsigned.to_uint_nonnil]. Qed.

Lemma decimal_digit d :
  0 <= d <= 9 ->
  exists D c, decimal d = [c] /\ digit_of c = Some D
              /\ Z.of_N (N.of_uint (D Decimal.Nil)) = d.
Proof.
  intros Hd.
  assert (d = 0 \/ d = 1 \/ d = 2 \/ d = 3 \/ d = 4 \/ d = 5 \/ d = 6 \/ d = 7
          \/ d = 8 \/ d = 9) as Hcases by lia.
  repeat (destruct Hcases as [->|Hcases]); [..|subst d];
    eexists _, _; repeat split.
Qed.

Lemma read_unsigned_fixed a b u :
  0 <= a -> 0 <= b <= 9 ->
  read_unsigned (decimal a ++ lit "." ++ decimal b ++ u) = Some (10 * a + b, u).
Proof.
  intros Ha Hb. destruct (decimal_digit b Hb) as (D & c & -> & HD & Hv).
  unfold read_unsigned, decimal at 1.
  change (lit "." ++ [c] ++ u) with (46%N :: c :: u).
  rewrite read_uint_uint_str by (intros ? ? [= <- _]; reflexivity).
  pose proof (to_uint_nonnil (Z.to_N a)) as Hnil.
  pose proof (DecimalN.Unsigned.of_to (Z.to_N a)) as Hof.
  destruct (N.to_uint (Z.to_N a)) eqn:E; [done|..];
    cbn [N.eqb Pos.eqb]; rewrite HD, Hof, Hv, Z2N.id by lia; reflexivity.
Qed.

Lemma read_human_unsigned d rest :
  d <> Decimal.Nil ->
  read_human (uint_str d ++ rest) = read_unsigned (uint_str d ++ rest).
Proof. intros Hd. destruct d; [done|..]; reflexivity. Qed.

Lemma read_human_fixed1 s t u :
  0 <= t -> read_human (fixed1 s t ++ u) = Some (cond_Zopp s t, u).
Proof.
  intros Ht. unfold fixed1.
  assert (Hq : 0 <= t / 10) by (apply Z.div_pos; lia).
  assert (Hr : 0 <= t mod 10 <= 9) by (pose proof (Z.mod_pos_bound t 10); lia).
  assert (Hval : 10 * (t / 10) + t mod 10 = t)
    by (pose proof (Z.div_mod t 10); lia).
  rewrite <- !app_assoc.
  pose proof (read_unsigned_fixed (t / 10) (t mod 10) u Hq Hr) as Hread.
  rewrite Hval in Hread.
  destruct s.
  - change (lit "-" ++ ?x) with (45%N :: x). cbn [read_human N.eqb Pos.eqb].
    rewrite Hread. reflexivity.
  - cbn [app]. unfold decimal at 1.
    rewrite read_human_unsigned by apply to_uint_nonnil. exact Hread.
Qed.

Lemma tenths_nonneg m e : 0 <= tenths m e.
Proof.
  unfold tenths. destruct (0 <=? e) eqn:E.
  - assert (0 < 2 ^ e) by (apply Z.pow_pos_nonneg; lia). nia.
  - apply rne_div_nonneg; [lia | apply Z.pow_pos_nonneg; lia].
Qed.

Lemma read_human_format x u :
  x = S754_zero false \/ (exists s m e, x = S754_finite s m e) ->
  read_human (format_1f x ++ u) = Some (shown x, u).
Proof.
  intros [->|(s & m & e & ->)]; cbn [format_1f shown].
  - now rewrite read_human_fixed1.
  - rewrite read_human_fixed1 by apply tenths_nonneg. reflexivity.
Qed.

(** *** Fuel *)

Lemma while_more_fuel {S : Type} (cond : S -> bool) (body : S -> S) fuel :
  forall s r, while fuel cond body s = Some r ->
              while (Datatypes.S fuel) cond body s = Some r.
Proof.
  induction fuel as [|fuel IH]; intros s r; cbn [while].
  - destruct (cond s); [discriminate | done].
  - destruct (cond s); [|done]. intros H. apply IH in H. exact H.
Qed.

Lemma while_enough_fuel {S : Type} (cond : S -> bool) (body : S -> S) fuel fuel' s r :
  (fuel <= fuel')%nat ->
  while fuel cond body s = Some r -> while fuel' cond body s = Some r.
Proof.
  induction 1 as [|fuel' Hle IH]; [done|].
  intros H. apply while_more_fuel, IH, H.
Qed.

Lemma scaled_fuel fuel n : (5 <= fuel)%nat -> scaled fuel n = scaled 5 n.
Proof.
  intros Hfuel. destruct (Z_lt_le_dec (Z.abs n) float_limit) as [Hlt|Hge].
  - destruct (scaled_spec 5 n ltac:(lia) Hlt) as (x & Hrun & _).
    rewrite Hrun. unfold scaled in *.
    destruct (float_of_int n) as [val|e]; [|done].
    destruct (while 5 loop_cond loop_body (val, 0%nat)) as [r|] eqn:Hw;
      [|discriminate].
    now rewrite (while_enough_fuel _ _ 5 fuel _ r Hfuel Hw).
  - now rewrite !scaled_overflow.
Qed.

Lemma bytes_to_human_fuel fuel n :
  (5 <= fuel)%nat -> _bytes_to_human fuel n = _bytes_to_human 5 n.
Proof. intros Hfuel. unfold _bytes_to_human. now rewrite scaled_fuel. Qed.

(** A text that is returned is the printed state of [scaled_spec]. *)
Lemma bytes_to_human_inv fuel n s :
  (5 <= fuel)%nat -> _bytes_to_human fuel n = Some (Return s) ->
  Z.abs n < float_limit
  /\ exists x,
      s = format_1f x ++ unit_of (tier_of n)
      /\ shown x = Z.sgn n * rne_div (10 * round53 (Z.abs n))
                              (1024 ^ Z.of_nat (tier_of n))
      /\ read_human s = Some (shown x, unit_of (tier_of n)).
Proof.
  intros Hfuel Hs. unfold _bytes_to_human in Hs.
  destruct (Z_lt_le_dec (Z.abs n) float_limit) as [Hlt|Hge].
  - split; [done|].
    destruct (scaled_spec fuel n Hfuel Hlt) as (x & Hrun & Hshown & Hx).
    rewrite Hrun in Hs. injection Hs as <-.
    exists x. split; [done|]. split; [done|]. now apply read_human_format.
  - rewrite scaled_overflow in Hs by done. discriminate.
Qed.

Lemma unit_of_inj i j :
  (i <= 5)%nat -> (j <= 5)%nat -> unit_of i = unit_of j -> i = j.
Proof.
  intros Hi Hj.
  destruct i as [|[|[|[|[|[|i]]]]]]; [..|lia];
    (destruct j as [|[|[|[|[|[|j]]]]]]; [..|lia]);
    first [reflexivity | discriminate].
Qed.

Lemma round53_nonneg a : 0 <= a -> 0 <= round53 a.
Proof. intros Ha. apply (round53_mono 0 a). lia. Qed.

(** The printed number grows with the integer inside a tier. *)
Lemma shown_mono (i : nat) n1 n2 :
  n1 <= n2 ->
  Z.sgn n1 * rne_div (10 * round53 (Z.abs n1)) (1024 ^ Z.of_nat i)
  <= Z.sgn n2 * rne_div (10 * round53 (Z.abs n2)) (1024 ^ Z.of_nat i).
Proof.
  intros Hle.
  assert (Hp : 0 < 1024 ^ Z.of_nat i) by (apply Z.pow_pos_nonneg; lia).
  assert (Hnn : forall n, 0 <= rne_div (10 * round53 (Z.abs n)) (1024 ^ Z.of_nat i)).
  { intros n. apply rne_div_nonneg; [|done].
    pose proof (round53_nonneg (Z.abs n) ltac:(lia)). lia. }
  pose proof (Hnn n1). pose proof (Hnn n2).
  destruct (Z.lt_trichotomy n1 0) as [H1|[->|H1]];
    destruct (Z.lt_trichotomy n2 0) as [H2|[->|H2]]; try lia;
    rewrite ?Z.sgn_neg, ?Z.sgn_pos, ?Z.sgn_0 by done; try lia.
  - pose proof (round53_mono (Z.abs n2) (Z.abs n1) ltac:(lia)).
    pose proof (rne_div_mono (10 * round53 (Z.abs n2)) (10 * round53 (Z.abs n1))
                  _ Hp ltac:(lia)). lia.
  - pose proof (round53_mono (Z.abs n1) (Z.abs n2) ltac:(lia)).
    pose proof (rne_div_mono (10 * round53 (Z.abs n1)) (10 * round53 (Z.abs n2))
                  _ Hp ltac:(lia)). lia.
Qed.

(** C9. For a fuel that lets the loop finish (five iterations): the unit
    of a returned text is the one of the tier of [n], which rises
    exactly at the powers of 1024; of two integers [n1 < n2] whose texts
    carry the same unit, the number printed for [n1] is at most the one
    printed for [n2]; and 1023, 1024 and 1048576 are printed as
    ["1023.0B"], ["1.0KB"] and ["1.0MB"]. *)
Theorem bytes_to_human_monotonic_tiers fuel :
  (5 <= fuel)%nat ->
  (forall n s,
      _bytes_to_human fuel n = Some (Return s) ->
      exists t, read_human s = Some (t, unit_of (tier_of n)))
  /\ (forall n1 n2 s1 s2 t1 t2 u,
        n1 < n2 ->
        _bytes_to_human fuel n1 = Some (Return s1) ->
        _bytes_to_human fuel n2 = Some (Return s2) ->
        read_human s1 = Some (t1, u) -> read_human s2 = Some (t2, u) ->
        t1 <= t2)
  /\ _bytes_to_human fuel 1023 = Some (Return (lit "1023.0B"))
  /\ _bytes_to_human fuel 1024 = Some (Return (lit "1.0KB"))
  /\ _bytes_to_human fuel 1048576 = Some (Return (lit "1.0MB")).
Proof.
  intros Hfuel. split; [|split].
  - intros n s Hs.
    destruct (bytes_to_human_inv fuel n s Hfuel Hs) as (_ & x & _ & _ & Hread).
    eauto.
  - intros n1 n2 s1 s2 t1 t2 u Hlt Hs1 Hs2 Hr1 Hr2.
    destruct (bytes_to_human_inv fuel n1 s1 Hfuel Hs1) as (_ & x1 & _ & Hv1 & Hread1).
    destruct (bytes_to_human_inv fuel n2 s2 Hfuel Hs2) as (_ & x2 & _ & Hv2 & Hread2).
    rewrite Hread1 in Hr1. rewrite Hread2 in Hr2.
    injection Hr1 as <- <-. injection Hr2 as <- Hu.
    apply unit_of_inj in Hu; [|apply tier_of_le..].
    rewrite Hv1, Hv2, Hu. apply shown_mono. lia.
  - rewrite !(bytes_to_human_fuel fuel) by done.
    repeat split; vm_compute; reflexivity.
Qed.

Lemma bytes_to_human_monotonic_tiers_witness :
  (5 <= 5)%nat
  /\ _bytes_to_human 5 1024 = Some (Return (lit "1.0KB"))
  /\ _bytes_to_human 5 2047 = Some (Return (lit "2.0KB"))
  /\ forall t1 t2 u,
      read_human (lit "1.0KB") = Some (t1, u) ->
      read_human (lit "2.0KB") = Some (t2, u) -> t1 <= t2.
Proof.
  split; [lia|]. split; [vm_compute; reflexivity|].
  split; [vm_compute; reflexivity|].
  intros t1 t2 u.
  apply (proj1 (proj2 (bytes_to_human_monotonic_tiers 5 ltac:(lia))) 1024 2047);
    [lia | vm_compute; reflexivity | vm_compute; reflexivity].
Defined.

(** C10 (as amended). With fuel for five iterations the helper ends on
    every non-negative integer.  Below [2^1024 - 2^970] it returns a
    number followed by a unit of the list, the one of the integer's
    tier, whose index never passes the last element and which is ["PB"]
    from [1024^5] on; from [2^1024 - 2^970] on, [float(n)] raises
    [OverflowError] and no text is returned. *)
Theorem bytes_to_human_returns fuel n :
  (5 <= fuel)%nat -> 0 <= n ->
  (n < float_limit ->
   exists digits t,
     _bytes_to_human fuel n = Some (Return (digits ++ unit_of (tier_of n)))
     /\ read_human (digits ++ unit_of (tier_of n)) = Some (t, unit_of (tier_of n))
     /\ (tier_of n < length units)%nat
     /\ (unit_of (tier_of n) ∈ units)
     /\ (1024 ^ 5 <= n -> unit_of (tier_of n) = lit "PB"))
  /\ (float_limit <= n ->
      _bytes_to_human fuel n
      = Some (Raise (OverflowError (lit "int too large to convert to float")))).
Proof.
  intros Hfuel Hn. split.
  - intros Hlim.
    destruct (scaled_spec fuel n Hfuel ltac:(lia)) as (x & Hrun & _ & Hx).
    exists (format_1f x), (shown x). unfold _bytes_to_human. rewrite Hrun.
    pose proof (tier_of_le n) as Hle.
    split; [done|]. split; [now apply read_human_format|].
    split; [cbn; lia|]. split.
    + unfold unit_of. destruct (units !! tier_of n) as [u|] eqn:Hu.
      * cbn. eapply list_elem_of_lookup_2, Hu.
      * apply lookup_ge_None in Hu. cbn in Hu. lia.
    + intros Hbig. unfold tier_of.
      assert (1024 < 1024 ^ 2) by reflexivity.
      assert (1024 ^ 2 < 1024 ^ 3) by reflexivity.
      assert (1024 ^ 3 < 1024 ^ 4) by reflexivity.
      assert (1024 ^ 4 < 1024 ^ 5) by reflexivity.
      destruct (n <? 1024) eqn:E1; [lia|].
      destruct (n <? 1024 ^ 2) eqn:E2; [lia|].
      destruct (n <? 1024 ^ 3) eqn:E3; [lia|].
      destruct (n <? 1024 ^ 4) eqn:E4; [lia|].
      destruct (n <? 1024 ^ 5) eqn:E5; [lia|]. reflexivity.
  - intros Hlim. unfold _bytes_to_human. rewrite scaled_overflow by lia. done.
Qed.

Lemma bytes_to_human_returns_witness :
  (5 <= 5)%nat /\ 0 <= 1024 ^ 5
  /\ exists digits,
      _bytes_to_human 5 (1024 ^ 5) = Some (Return (digits ++ lit "PB")).
Proof.
  split; [lia|]. split; [lia|].
  destruct (proj1 (bytes_to_human_returns 5 (1024 ^ 5) ltac:(lia) ltac:(lia))
              ltac:(reflexivity)) as (digits & t & Hrun & _).
  exists digits. exact Hrun.
Defined.

(** C10 (as stated) fails: [2^1024] is a non-negative integer, and on it
    [float(n)] raises [OverflowError], so no text is returned, whatever
    the fuel. *)
Lemma bytes_to_human_overflow_counterexample :
  0 <= 2 ^ 1024
  /\ forall fuel,
      _bytes_to_human fuel (2 ^ 1024)
      = Some (Raise (OverflowError (lit "int too large to convert to float")))
      /\ forall s, _bytes_to_human fuel (2 ^ 1024) <> Some (Return s).
Proof.
  split; [lia|]. intros fuel.
  assert (Hrun : _bytes_to_human fuel (2 ^ 1024)
                 = Some (Raise (OverflowError
                                  (lit "int too large to convert to float")))).
  { unfold _bytes_to_human. rewrite scaled_overflow; [done|].
    vm_compute. discriminate. }
  split; [exact Hrun|]. intros s. rewrite Hrun. discriminate.
Qed.

End HumanFacts.

(** * Part III: further properties of the code *)

(** ** [strip] and the credential check *)

Module AuthCases.
Import PyStr PyStrFacts Auth Spec.

Lemma lstrip_spaces pre s : all_space pre -> lstrip (pre ++ s) = lstrip s.
Proof.
  induction 1 as [|c pre Hc _ IH]; [reflexivity|].
  cbn [app lstrip]. now rewrite Hc.
Qed.

Lemma lstrip_head c t : isspace c = false -> lstrip (c :: t) = c :: t.
Proof. intros Hc. cbn [lstrip]. now rewrite Hc. Qed.

Lemma lstrip_split s :
  exists pre, s = pre ++ lstrip s /\ all_space pre
              /\ forall c t, lstrip s = c :: t -> isspace c = false.
Proof.
  induction s as [|c s (pre & Heq & Hpre & Hhead)].
  - exists []. repeat split; [constructor | discriminate].
  - cbn [lstrip]. destruct (isspace c) eqn:Hc.
    + exists (c :: pre). split; [cbn; congruence|]. split; [now constructor|done].
    + exists []. split; [done|]. split; [constructor|].
      intros c' t [= <- _]. exact Hc.
Qed.

Lemma rstrip_split s :
  exists post, s = rstrip s ++ post /\ all_space post
               /\ forall t c, rstrip s = t ++ [c] -> isspace c = false.
Proof.
  unfold rstrip. destruct (lstrip_split (rev s)) as (pre & Heq & Hpre & Hhead).
  exists (rev pre). split; [|split].
  - rewrite <- rev_app_distr, <- Heq. now rewrite rev_involutive.
  - now apply List.Forall_rev.
  - intros t c Hr. apply (Hhead c (rev t)).
    rewrite <- (rev_involutive (lstrip (rev s))), Hr, rev_app_distr. reflexivity.
Qed.

(** What [strip] returns is trimmed, and is the text less a run of
    whitespace on each side. *)
Lemma strip_split s :
  exists pre post, s = pre ++ strip s ++ post /\ all_space pre /\ all_space post
                   /\ trimmed (strip s).
Proof.
  unfold strip.
  destruct (lstrip_split s) as (pre & Heq & Hpre & Hhead).
  destruct (rstrip_split (lstrip s)) as (post & Heq' & Hpost & Hlast).
  exists pre, post. split; [now rewrite <- Heq'|]. split; [done|]. split; [done|].
  split; [|exact Hlast].
  intros c t Hr. apply (Hhead c (t ++ post)). rewrite Heq', Hr. reflexivity.
Qed.

Lemma strip_padded pre core post :
  all_space pre -> all_space post -> trimmed core -> strip (pre ++ core ++ post) = core.
Proof.
  intros Hpre Hpost [Hh Hl]. unfold strip. rewrite lstrip_spaces by done.
  destruct core as [|c core]; cbn [app].
  - (* nothing but whitespace *)
    assert (Hall : forall s, all_space s -> lstrip s = []).
    { induction 1 as [|d s Hd _ IH]; [done|]. cbn [lstrip]. now rewrite Hd. }
    rewrite (Hall post Hpost). reflexivity.
  - rewrite lstrip_head by (eapply Hh; reflexivity).
    unfold rstrip. change (c :: core ++ post) with ((c :: core) ++ post).
    rewrite rev_app_distr.
    rewrite lstrip_spaces.
    + destruct (exists_last (l := c :: core) ltac:(discriminate)) as (t & d & Heq).
      rewrite Heq, rev_app_distr. cbn [rev app].
      rewrite lstrip_head by (eapply Hl; exact Heq).
      change (d :: rev t) with (rev [d] ++ rev t).
      rewrite <- rev_app_distr. apply rev_involutive.
    + now apply List.Forall_rev.
Qed.

(** *** The cases of [_require_auth] *)

(** The three ways the check goes, once a secret is configured. *)
Lemma require_auth_configured secret authorization :
  secret <> [] ->
  _require_auth (Some secret) authorization
  = match authorization with
    | Some a =>
        if startswith a Bearer then
          if bool_decide (strip (removeprefix a Bearer) = secret)
          then Return tt
          else Raise (PermissionError msg_invalid)
        else Raise (PermissionError msg_missing)
    | None => Raise (PermissionError msg_missing)
    end.
Proof.
  intros Hsecret. unfold _require_auth.
  assert (truthy (Some secret) = true) as -> by (now destruct secret).
  cbn [negb]. destruct authorization as [a|]; [|reflexivity].
  destruct (startswith a Bearer) eqn:Hpre.
  - assert (truthy (Some a) = true) as ->.
    { apply startswith_spec in Hpre as [rest ->]. reflexivity. }
    cbn [negb orb].
    destruct (decide (strip (removeprefix a Bearer) = secret)) as [Heq|Hne].
    + rewrite !bool_decide_eq_true_2 by congruence. reflexivity.
    + rewrite !bool_decide_eq_false_2 by congruence. reflexivity.
  - now rewrite orb_true_r.
Qed.

(** X1. A configured secret that starts or ends with whitespace locks
    everybody out: the token of the header is stripped before the
    comparison, so no header at all passes the check. *)
Theorem require_auth_padded_secret_locked secret authorization :
  secret <> [] -> ~ trimmed secret ->
  exists msg, _require_auth (Some secret) authorization = Raise (PermissionError msg).
Proof.
  intros Hsecret Hpad. rewrite require_auth_configured by done.
  destruct authorization as [a|]; [|eauto].
  destruct (startswith a Bearer); [|eauto].
  case_bool_decide as Heq; [|eauto].
  destruct Hpad. rewrite <- Heq.
  destruct (strip_split (removeprefix a Bearer)) as (? & ? & _ & _ & _ & Ht).
  exact Ht.
Qed.

(** X2. Whitespace around the token is forgiven: after ["Bearer "], the
    secret may be preceded and followed by any run of whitespace. *)
Theorem require_auth_padding_accepted secret pre post :
  secret <> [] -> trimmed secret -> all_space pre -> all_space post ->
  _require_auth (Some secret) (Some (lit "Bearer " ++ pre ++ secret ++ post))
  = Return tt.
Proof.
  intros Hsecret Ht Hpre Hpost. rewrite require_auth_configured by done.
  change (lit "Bearer ") with Bearer.
  assert (startswith (Bearer ++ pre ++ secret ++ post) Bearer = true) as ->
    by (apply startswith_spec; eauto).
  rewrite removeprefix_app, strip_padded by done.
  now rewrite bool_decide_eq_true_2.
Qed.

(** X3. The message tells which test failed: ["Missing Authorization
    Bearer token"] exactly when the header is absent or does not start
    with ["Bearer "], ["Invalid token"] exactly when it does and the
    stripped remainder is not the secret. *)
Theorem require_auth_messages secret authorization :
  secret <> [] ->
  (_require_auth (Some secret) authorization = Raise (PermissionError msg_missing)
   <-> ~ exists rest, authorization = Some (lit "Bearer " ++ rest))
  /\ (_require_auth (Some secret) authorization = Raise (PermissionError msg_invalid)
      <-> exists rest, authorization = Some (lit "Bearer " ++ rest)
                       /\ strip rest <> secret).
Proof.
  intros Hsecret. rewrite require_auth_configured by done.
  change (lit "Bearer ") with Bearer.
  destruct authorization as [a|].
  - destruct (startswith a Bearer) eqn:Hpre.
    + apply startswith_spec in Hpre as [rest ->]. rewrite removeprefix_app.
      case_bool_decide as Heq; split; split.
      * discriminate.
      * intros []. eauto.
      * discriminate.
      * intros (rest' & [= <-] & Hne). done.
      * discriminate.
      * intros []. eauto.
      * intros _. eauto.
      * reflexivity.
    + split; split.
      * intros _ (rest & [= ->]).
        apply not_true_iff_false in Hpre. apply Hpre, startswith_spec.
        now exists rest.
      * reflexivity.
      * discriminate.
      * intros (rest & [= ->] & _).
        apply not_true_iff_false in Hpre. exfalso. apply Hpre, startswith_spec.
        now exists rest.
  - split; split; try reflexivity; try discriminate.
    + intros _ (rest & [=]).
    + intros (rest & [=] & _).
Qed.

Lemma require_auth_padded_secret_locked_witness :
  lit " abc" <> [] /\ ~ trimmed (lit " abc")
  /\ exists msg, _require_auth (Some (lit " abc")) (Some (lit "Bearer  abc"))
                 = Raise (PermissionError msg).
Proof.
  assert (Hne : lit " abc" <> []) by discriminate.
  assert (Hpad : ~ trimmed (lit " abc")).
  { intros [Hh _]. specialize (Hh 32%N (lit "abc") eq_refl). discriminate. }
  split; [exact Hne|]. split; [exact Hpad|].
  exact (require_auth_padded_secret_locked (lit " abc")
           (Some (lit "Bearer  abc")) Hne Hpad).
Defined.

Lemma require_auth_padding_accepted_witness :
  _require_auth (Some (lit "abc123")) (Some (lit "Bearer   abc123 ")) = Return tt.
Proof.
  apply (require_auth_padding_accepted (lit "abc123") (lit "  ") (lit " ")).
  - discriminate.
  - split.
    + intros c t [= <- _]. reflexivity.
    + intros t c H. change (lit "abc123") with (lit "abc12" ++ [51%N]) in H.
      apply app_inj_tail in H as [_ <-]. reflexivity.
  - repeat constructor.
  - repeat constructor.
Defined.

Lemma require_auth_messages_witness :
  lit "abc123" <> []
  /\ _require_auth (Some (lit "abc123")) (Some (lit "Bearer wrong"))
     = Raise (PermissionError msg_invalid).
Proof.
  assert (Hne : lit "abc123" <> []) by discriminate.
  split; [exact Hne|].
  apply (proj2 (require_auth_messages (lit "abc123") (Some (lit "Bearer wrong")) Hne)).
  exists (lit "wrong"). split; [reflexivity | vm_compute; discriminate].
Defined.

End AuthCases.

(** ** The handlers *)

Module HandlerCases.
Import PyStr PyFloat Monad MonadFacts Api Spec DiskFacts ApiFacts AuthFacts.

Section Cases.
Context {World : Type} (os : OS World).

Lemma bind_raise_inv {A B : Type} (c : M World A) (k : A -> M World B) w e w' :
  bind c k w = (Raise e, w') ->
  c w = (Raise e, w') \/ exists a w1, c w = (Return a, w1) /\ k a w1 = (Raise e, w').
Proof.
  unfold bind. destruct (c w) as [[a|e0] w1]; [eauto|].
  intros [= -> ->]. now left.
Qed.

(** The loop itself never raises [PermissionError]. *)
Lemma for_each_disk_step_raise parts : forall st w e w',
  for_each parts (disk_step os) st w = (Raise e, w') -> is_PermissionError e = false.
Proof.
  induction parts as [|part parts IH]; intros [seen items] w e w'; cbn [for_each].
  - discriminate.
  - intros [Hstep|([seen1 items1] & w1 & _ & Hrest)]%bind_raise_inv; [|eauto].
    pose proof (disk_step_case os part seen items w) as Hcase.
    rewrite Hstep in Hcase. now inversion Hcase.
Qed.

Lemma disk_loop_raise parts w e w' :
  disk_loop os parts w = (Raise e, w') -> is_PermissionError e = false.
Proof.
  unfold disk_loop.
  intros [Hrun|(st & w1 & _ & Hret)]%bind_raise_inv; [|discriminate].
  eapply for_each_disk_step_raise, Hrun.
Qed.

Lemma load_average_no_raise w e w' : load_average os w <> (Raise e, w').
Proof.
  destruct (load_average_returns os w) as (a & b & c & w1 & -> & _). discriminate.
Qed.

(** A [PermissionError] that ends the [try] block comes from the
    credential check, when no query is refused. *)
Lemma metrics_try_permission token authorization w msg w' :
  never_refused os ->
  metrics_try os token authorization w = (Raise (PermissionError msg), w') ->
  Auth._require_auth token authorization = Raise (PermissionError msg) /\ w' = w.
Proof.
  intros (Hcpu & Hvm & Hparts & Hroot & Hnet & Htime & Hboot & Hhost) Htry.
  unfold metrics_try in Htry.
  apply bind_raise_inv in Htry as [Hauth|(? & w0 & _ & Htry)].
  { unfold lift in Hauth. injection Hauth as -> ->. done. }
  exfalso.
  apply bind_raise_inv in Htry as [H|(? & ? & _ & Htry)]; [now apply Hcpu in H|].
  apply bind_raise_inv in Htry as [H|(? & ? & _ & Htry)];
    [now apply load_average_no_raise in H|].
  apply bind_raise_inv in Htry as [H|(? & ? & _ & Htry)]; [now apply Hvm in H|].
  apply bind_raise_inv in Htry as [H|(? & ? & _ & Htry)]; [now apply Hparts in H|].
  apply bind_raise_inv in Htry as [H|(items & ? & _ & Htry)];
    [now apply disk_loop_raise in H|].
  apply bind_raise_inv in Htry as [H|(? & ? & _ & Htry)].
  { destruct items; [|discriminate]. cbn [disk_fallback] in H.
    apply bind_raise_inv in H as [H|(? & ? & _ & H)]; [now apply Hroot in H|discriminate]. }
  apply bind_raise_inv in Htry as [H|(? & ? & _ & Htry)]; [now apply Hnet in H|].
  apply bind_raise_inv in Htry as [H|(now & ? & _ & Htry)]; [now apply Htime in H|].
  apply bind_raise_inv in Htry as [H|(boot & ? & _ & Htry)]; [now apply Hboot in H|].
  apply bind_raise_inv in Htry as [H|(? & ? & _ & Htry)].
  { unfold lift in H. injection H as H _.
    destruct (sub now boot); discriminate. }
  apply bind_raise_inv in Htry as [H|(? & ? & _ & Htry)]; [now apply Hhost in H|].
  do 3 (apply bind_raise_inv in Htry as [H|(? & ? & _ & Htry)];
        [unfold lift, getitem in H; injection H as H _;
         destruct (_ !! _); discriminate|]).
  apply bind_raise_inv in Htry as [H|(? & ? & _ & Htry)]; [|discriminate].
  unfold timestamp in H. destruct (time_gmtime os _). discriminate.
Qed.

Lemma metrics_unauthorized token response authorization w e :
  Auth._require_auth token authorization = Raise e ->
  metrics os token response authorization w
  = (Return ({| ApiResponse.ok := false;
                ApiResponse.ts := strftime ts_format (time_gmtime os w).1;
                ApiResponse.metrics := None;
                ApiResponse.error := Some (exn_str e) |},
             {| status_code := Some 401%Z |}),
     (time_gmtime os w).2).
Proof.
  intros Hauth. pose proof (require_auth_raises _ _ _ Hauth) as Hperm.
  unfold metrics, bind. rewrite attempt_eq.
  rewrite (metrics_try_unauthorized os _ _ _ w Hauth). cbn [fst snd].
  destruct e; try discriminate.
  unfold failure, bind, timestamp, ret. now destruct (time_gmtime os w).
Qed.

(** X4. A request that fails the credential check costs the host nothing:
    the answer is the 401 response stamped with the clock read in the
    world the request arrived in, and the world it leaves is that of
    the clock reading, so no statistics query (and no CPU sampling) was
    issued. *)
Theorem unauthorized_issues_no_query token response authorization w e :
  Auth._require_auth token authorization = Raise e ->
  is_PermissionError e = true
  /\ metrics os token response authorization w
     = (Return ({| ApiResponse.ok := false;
                   ApiResponse.ts := strftime ts_format (time_gmtime os w).1;
                   ApiResponse.metrics := None;
                   ApiResponse.error := Some (exn_str e) |},
                {| status_code := Some 401%Z |}),
        (time_gmtime os w).2).
Proof.
  intros Hauth. split; [eapply require_auth_raises, Hauth|].
  now apply metrics_unauthorized.
Qed.

(** X5. No snapshot without the check: a response that carries metrics
    was produced for a request that passed [_require_auth]. *)
Theorem snapshot_requires_auth token response authorization w r resp w' :
  metrics os token response authorization w = (Return (r, resp), w') ->
  is_Some (ApiResponse.metrics r) ->
  Auth._require_auth token authorization = Return tt.
Proof.
  intros Hm Hsnap.
  destruct (Auth._require_auth token authorization) as [[]|e] eqn:Hauth; [done|].
  rewrite (metrics_unauthorized _ response _ w _ Hauth) in Hm.
  injection Hm as <- _ _. destruct Hsnap as [m Hsnap]. discriminate.
Qed.

(** X6. On a host that refuses no query, 401 is the status of a failed
    credential check and of nothing else, and 503 is only given to
    requests that passed the check. *)
Theorem unauthorized_only_from_credentials token response authorization w r resp w' :
  never_refused os -> status_code response = None ->
  metrics os token response authorization w = (Return (r, resp), w') ->
  (status_code resp = Some 401%Z
   <-> exists msg, Auth._require_auth token authorization
                   = Raise (PermissionError msg))
  /\ (status_code resp = Some 503%Z ->
      Auth._require_auth token authorization = Return tt).
Proof.
  intros Hos Hresp Hm.
  destruct (metrics_cases os token response authorization w)
    as [(r0 & w0 & parts & items & m & Heq & R)|(e & w1 & tm & w0 & Htry & _ & Heq)];
    rewrite Heq in Hm; injection Hm as <- <- <-.
  - assert (Hauth : Auth._require_auth token authorization = Return tt).
    { destruct (Auth._require_auth token authorization) as [[]|e] eqn:Hauth; [done|].
      destruct R as [? ? ? ? ? ? ? ? _ _ _ _ _ ->].
      unfold metrics, bind in Heq. rewrite attempt_eq in Heq.
      rewrite (metrics_try_unauthorized os _ _ _ w Hauth) in Heq.
      pose proof (require_auth_raises _ _ _ Hauth).
      destruct e; try discriminate.
      cbn [fst snd] in Heq. unfold failure, bind, timestamp, ret in Heq.
      destruct (time_gmtime os w). discriminate. }
    rewrite Hresp, Hauth. split; [split|]; [discriminate | intros [? [=]] | done].
  - cbn [status_code]. destruct (is_PermissionError e) eqn:Hperm.
    + destruct e as [msg| | |]; try discriminate.
      destruct (metrics_try_permission _ _ _ _ _ Hos Htry) as [Hauth _].
      split; [split; eauto|]. discriminate.
    + split; [split; [discriminate|]|].
      * intros [msg Hauth].
        rewrite (metrics_try_unauthorized os _ _ _ w Hauth) in Htry.
        injection Htry as <- _. discriminate.
      * intros _.
        destruct (Auth._require_auth token authorization) as [[]|e'] eqn:Hauth; [done|].
        rewrite (metrics_try_unauthorized os _ _ _ w Hauth) in Htry.
        injection Htry as <- _.
        pose proof (require_auth_raises _ _ _ Hauth). congruence.
Qed.

(** X7. The [ok] flag and the status code tell the same story: [ok] is
    true with the status left to the framework, or false with 401 or
    503. *)
Theorem ok_matches_status token response authorization w r resp w' :
  status_code response = None ->
  metrics os token response authorization w = (Return (r, resp), w') ->
  (ApiResponse.ok r = true /\ status_code resp = None)
  \/ (ApiResponse.ok r = false
      /\ (status_code resp = Some 401%Z \/ status_code resp = Some 503%Z)).
Proof.
  intros Hresp Hm.
  destruct (metrics_cases os token response authorization w)
    as [(r0 & w0 & parts & items & m & Heq & R)|(e & w1 & tm & w0 & Htry & _ & Heq)];
    rewrite Heq in Hm; injection Hm as <- <- <-.
  - left. destruct R as [? ? ? ? ? ? ? ? _ _ _ _ _ ->]. done.
  - right. cbn. destruct (is_PermissionError e); auto.
Qed.

(** X8. A snapshot reports exactly three load averages: the three the
    host gave, or three zeros when the query raised. *)
Theorem snapshot_load_avg token response authorization w r resp w' m :
  metrics os token response authorization w = (Return (r, resp), w') ->
  ApiResponse.metrics r = Some m ->
  length (Metrics.load_avg m) = 3
  /\ exists w1 w2,
      (exists a b c, os_getloadavg os w1 = (Return (a, b, c), w2)
                     /\ Metrics.load_avg m = [a; b; c])
      \/ ((exists e, os_getloadavg os w1 = (Raise e, w2))
          /\ Metrics.load_avg m = [f0; f0; f0]).
Proof.
  intros Hm Hsnap.
  destruct (metrics_snapshot_run os _ _ _ _ _ _ _ _ Hm Hsnap) as (parts & items & R).
  destruct R as [tm w1 w2 w3 w4 w5 w6 w7 Hl _ _ _ _ _].
  destruct (load_average_returns os w1) as (a & b & c & w2' & Hl' & Hsrc).
  rewrite Hl' in Hl. injection Hl as Hl <-. rewrite <- Hl.
  split; [reflexivity|]. exists w1, w2'.
  destruct Hsrc as [Hq|(He & -> & -> & ->)]; [left; eauto 6 | right; eauto].
Qed.

(** On a host whose usage answers depend on the path alone, the loop is
    [collect] over the real partitions among the first occurrences. *)
Lemma for_each_collect usage parts : forall seen items w,
  (forall m w0, psutil_disk_usage os m w0 = (usage m, w0)) ->
  match collect usage (filter real_fs (first_by_mount seen parts)) with
  | Return new =>
      exists seen', for_each parts (disk_step os) (seen, items) w
                    = (Return (seen', items ++ new), w)
  | Raise e => for_each parts (disk_step os) (seen, items) w = (Raise e, w)
  end.
Proof.
  induction parts as [|part parts IH]; intros seen items w Hpure.
  - cbn. exists seen. now rewrite app_nil_r.
  - cbn [for_each first_by_mount].
    pose proof (disk_step_case os part seen items w) as Hcase.
    unfold bind.
    destruct Hcase as [Hin|Hin Hfs|msg w1 Hin Hfs Hq|e w1 Hin Hfs Hq He
                      |du w1 Hin Hfs Hq].
    + rewrite decide_True by done. apply IH, Hpure.
    + rewrite decide_False by done. rewrite filter_cons_False by done.
      apply IH, Hpure.
    + rewrite decide_False by done. rewrite filter_cons_True by done.
      rewrite Hpure in Hq. injection Hq as Hq <-.
      cbn [collect]. rewrite Hq. apply IH, Hpure.
    + rewrite decide_False by done. rewrite filter_cons_True by done.
      rewrite Hpure in Hq. injection Hq as Hq <-.
      cbn [collect]. rewrite Hq. destruct e; [discriminate|reflexivity..].
    + rewrite decide_False by done. rewrite filter_cons_True by done.
      rewrite Hpure in Hq. injection Hq as Hq <-.
      cbn [collect]. rewrite Hq.
      specialize (IH (seen ∪ {[mountpoint part]})
                    (items ++ [DiskUsageItem_of (mountpoint part) du]) w Hpure).
      destruct (collect usage _) as [new|e]; [|exact IH].
      destruct IH as [seen' IH]. exists seen'. rewrite IH.
      now rewrite <- app_assoc.
Qed.

(** X9. On a host whose usage answers depend on the path alone, the
    loop is [collect] over the real partitions among the first
    occurrences: one entry per mount in enumeration order, a refused
    mount skipped, and the first failure of another kind ending the
    loop with that exception. *)
Theorem disk_loop_collect usage parts w :
  (forall m w0, psutil_disk_usage os m w0 = (usage m, w0)) ->
  disk_loop os parts w = (collect usage (dedup_then_exclude parts), w).
Proof.
  intros Hpure. unfold disk_loop, bind, dedup_then_exclude.
  pose proof (for_each_collect usage parts ∅ [] w Hpure) as H.
  destruct (collect usage _) as [new|e].
  - destruct H as [seen' ->]. reflexivity.
  - now rewrite H.
Qed.

End Cases.

Lemma linux_never_refused : never_refused (Host.os_of Host.linux).
Proof. repeat split; intros; discriminate. Qed.

Lemma unauthorized_issues_no_query_witness :
  exists e r,
    Auth._require_auth (Some (lit "abc123")) None = Raise e
    /\ metrics (Host.os_of Host.linux) (Some (lit "abc123"))
         {| status_code := None |} None tt
       = (Return (r, {| status_code := Some 401%Z |}), tt).
Proof.
  eexists. eexists. split; [reflexivity|].
  apply (unauthorized_issues_no_query (Host.os_of Host.linux) (Some (lit "abc123"))
           {| status_code := None |} None tt).
  reflexivity.
Defined.

Lemma snapshot_requires_auth_witness :
  Auth._require_auth (Some (lit "abc123")) (Some (lit "Bearer abc123")) = Return tt.
Proof.
  eapply (snapshot_requires_auth (Host.os_of Host.linux) (Some (lit "abc123"))
            {| status_code := None |} (Some (lit "Bearer abc123")) tt).
  - vm_compute. reflexivity.
  - cbn. eexists. reflexivity.
Defined.

Lemma unauthorized_only_from_credentials_witness :
  exists r resp,
    metrics (Host.os_of Host.linux) (Some (lit "abc123")) {| status_code := None |}
      (Some (lit "Basic abc123")) tt = (Return (r, resp), tt)
    /\ (status_code resp = Some 401%Z
        <-> exists msg, Auth._require_auth (Some (lit "abc123"))
                          (Some (lit "Basic abc123"))
                        = Raise (PermissionError msg)).
Proof.
  eexists. eexists. split; [vm_compute; reflexivity|].
  eapply (unauthorized_only_from_credentials (Host.os_of Host.linux)
            (Some (lit "abc123")) {| status_code := None |}
            (Some (lit "Basic abc123")) tt).
  - exact linux_never_refused.
  - reflexivity.
  - vm_compute. reflexivity.
Defined.

Lemma ok_matches_status_witness :
  exists r resp,
    metrics (Host.os_of Host.linux) None {| status_code := None |} None tt
    = (Return (r, resp), tt)
    /\ ((ApiResponse.ok r = true /\ status_code resp = None)
        \/ (ApiResponse.ok r = false
            /\ (status_code resp = Some 401%Z \/ status_code resp = Some 503%Z))).
Proof.
  eexists. eexists. split; [vm_compute; reflexivity|].
  eapply (ok_matches_status (Host.os_of Host.linux) None {| status_code := None |}
            None tt); [reflexivity | vm_compute; reflexivity].
Defined.

Lemma snapshot_load_avg_witness :
  exists r m,
    metrics (Host.os_of Host.linux) None {| status_code := None |} None tt
    = (Return (r, {| status_code := None |}), tt)
    /\ ApiResponse.metrics r = Some m
    /\ length (Metrics.load_avg m) = 3.
Proof.
  eexists. eexists. split; [vm_compute; reflexivity|]. split; [reflexivity|].
  eapply (snapshot_load_avg (Host.os_of Host.linux) None {| status_code := None |}
            None tt); [vm_compute; reflexivity | reflexivity].
Defined.

Lemma disk_loop_collect_witness :
  let a := Host.with_usage Host.linux
             (fun m => if bool_decide (m = lit "/boot") then Raise Host.denied
                       else Return Host.du0) in
  let parts := [Host.part "/dev/sda1" "/" "ext4"; Host.part "/dev/sda2" "/boot" "ext4";
                Host.part "tmpfs" "/run" "tmpfs"; Host.part "/dev/sdb1" "/data" "xfs"] in
  disk_loop (Host.os_of a) parts tt
  = (Return [DiskUsageItem_of (lit "/") Host.du0;
             DiskUsageItem_of (lit "/data") Host.du0], tt).
Proof.
  intros a parts.
  rewrite (disk_loop_collect (Host.os_of a) (Host.usage a) parts tt);
    [vm_compute; reflexivity | reflexivity].
Defined.

(** *** Timestamps and [health] *)

Lemma uint_str_inj d d' : uint_str d = uint_str d' -> d = d'.
Proof.
  revert d'. induction d; intros d'; destruct d'; cbn [uint_str];
    intros H; try discriminate; try reflexivity;
    injection H as H; f_equal; now apply IHd.
Qed.

Lemma decimal_inj n n' : (0 <= n)%Z -> (0 <= n')%Z -> decimal n = decimal n' -> n = n'.
Proof.
  intros Hn Hn' H. unfold decimal in H.
  apply uint_str_inj, DecimalN.Unsigned.to_uint_inj in H. lia.
Qed.

Lemma pad2_inj n n' :
  (0 <= n <= 99)%Z -> (0 <= n' <= 99)%Z -> pad2 n = pad2 n' -> n = n'.
Proof.
  intros Hn Hn' H. unfold pad2 in H.
  destruct (n <? 10)%Z eqn:E; destruct (n' <? 10)%Z eqn:E'.
  - injection H as H. now apply decimal_inj.
  - exfalso. pose proof (pad2_two_digits n' ltac:(lia)) as H2.
    unfold pad2 in H2. rewrite E', <- H in H2.
    assert (Hall : forallb (fun k => negb (bool_decide
                      (hd 0%N (decimal (10 + Z.of_nat k)) = 48%N))) (seq 0 90) = true)
      by (vm_compute; reflexivity).
    rewrite forallb_forall in Hall.
    specialize (Hall (Z.to_nat (n' - 10)) ltac:(apply in_seq; lia)).
    replace (10 + Z.of_nat (Z.to_nat (n' - 10)))%Z with n' in Hall by lia.
    rewrite <- H in Hall. cbn in Hall. discriminate.
  - exfalso.
    assert (Hall : forallb (fun k => negb (bool_decide
                      (hd 0%N (decimal (10 + Z.of_nat k)) = 48%N))) (seq 0 90) = true)
      by (vm_compute; reflexivity).
    rewrite forallb_forall in Hall.
    specialize (Hall (Z.to_nat (n - 10)) ltac:(apply in_seq; lia)).
    replace (10 + Z.of_nat (Z.to_nat (n - 10)))%Z with n in Hall by lia.
    rewrite H in Hall. cbn in Hall. discriminate.
  - now apply decimal_inj.
Qed.

(** X10. The timestamp loses nothing: two broken-down times of the years
    1000 to 9999 that are stamped alike agree in year, month, day, hour,
    minute and second. *)
Theorem timestamp_injective tm1 tm2 :
  valid_tm tm1 -> valid_tm tm2 ->
  strftime ts_format tm1 = strftime ts_format tm2 -> tm1 = tm2.
Proof.
  intros (Hy1 & Hmo1 & Hd1 & Hh1 & Hmi1 & Hs1) (Hy2 & Hmo2 & Hd2 & Hh2 & Hmi2 & Hs2).
  rewrite !strftime_ts_format. intros H.
  pose proof (decimal_four_digits _ Hy1) as Ey1.
  pose proof (decimal_four_digits _ Hy2) as Ey2.
  pose proof (pad2_two_digits (tm_mon tm1) ltac:(lia)) as Emo1.
  pose proof (pad2_two_digits (tm_mon tm2) ltac:(lia)) as Emo2.
  pose proof (pad2_two_digits (tm_mday tm1) ltac:(lia)) as Ed1.
  pose proof (pad2_two_digits (tm_mday tm2) ltac:(lia)) as Ed2.
  pose proof (pad2_two_digits (tm_hour tm1) ltac:(lia)) as Eh1.
  pose proof (pad2_two_digits (tm_hour tm2) ltac:(lia)) as Eh2.
  pose proof (pad2_two_digits (tm_min tm1) ltac:(lia)) as Emi1.
  pose proof (pad2_two_digits (tm_min tm2) ltac:(lia)) as Emi2.
  pose proof (pad2_two_digits (tm_sec tm1) ltac:(lia)) as Es1.
  pose proof (pad2_two_digits (tm_sec tm2) ltac:(lia)) as Es2.
  assert (Hy : decimal (tm_year tm1) = decimal (tm_year tm2)
               /\ pad2 (tm_mon tm1) = pad2 (tm_mon tm2)
               /\ pad2 (tm_mday tm1) = pad2 (tm_mday tm2)
               /\ pad2 (tm_hour tm1) = pad2 (tm_hour tm2)
               /\ pad2 (tm_min tm1) = pad2 (tm_min tm2)
               /\ pad2 (tm_sec tm1) = pad2 (tm_sec tm2)).
  { destruct (decimal (tm_year tm1)) as [|? [|? [|? [|? [|]]]]]; try discriminate.
    destruct (decimal (tm_year tm2)) as [|? [|? [|? [|? [|]]]]]; try discriminate.
    destruct (pad2 (tm_mon tm1)) as [|? [|? [|]]]; try discriminate.
    destruct (pad2 (tm_mon tm2)) as [|? [|? [|]]]; try discriminate.
    destruct (pad2 (tm_mday tm1)) as [|? [|? [|]]]; try discriminate.
    destruct (pad2 (tm_mday tm2)) as [|? [|? [|]]]; try discriminate.
    destruct (pad2 (tm_hour tm1)) as [|? [|? [|]]]; try discriminate.
    destruct (pad2 (tm_hour tm2)) as [|? [|? [|]]]; try discriminate.
    destruct (pad2 (tm_min tm1)) as [|? [|? [|]]]; try discriminate.
    destruct (pad2 (tm_min tm2)) as [|? [|? [|]]]; try discriminate.
    destruct (pad2 (tm_sec tm1)) as [|? [|? [|]]]; try discriminate.
    destruct (pad2 (tm_sec tm2)) as [|? [|? [|]]]; try discriminate.
    cbn [app] in H. injection H as -> -> -> -> -> -> -> -> -> -> -> -> -> ->.
    repeat split. }
  destruct Hy as (Ky & Kmo & Kd & Kh & Kmi & Ks).
  apply decimal_inj in Ky; [|lia..].
  apply pad2_inj in Kmo; [|lia..]. apply pad2_inj in Kd; [|lia..].
  apply pad2_inj in Kh; [|lia..]. apply pad2_inj in Kmi; [|lia..].
  apply pad2_inj in Ks; [|lia..].
  destruct tm1, tm2. cbn in *. congruence.
Qed.

(** X11. [health] answers the two keys [ok], true, and [ts], a
    timestamp of the shape [YYYY-MM-DDTHH:MM:SSZ], in this order,
    whatever the state of the host, and asks the host for nothing but
    the time. *)
Theorem health_ok {World : Type} (os : OS World) w :
  valid_tm (time_gmtime os w).1 ->
  exists ts,
    health os w = ([(lit "ok", AnyBool true); (lit "ts", AnyStr ts)],
                   (time_gmtime os w).2)
    /\ iso8601_utc_seconds ts = true.
Proof.
  intros Hclock. unfold health. destruct (time_gmtime os w) as [tm w'].
  eexists. split; [reflexivity|]. now apply strftime_iso8601.
Qed.

Lemma linux_clock_valid : valid_tm (Host.clock Host.linux).
Proof. unfold valid_tm. cbn. lia. Qed.

Lemma timestamp_injective_witness :
  strftime ts_format (Host.clock Host.linux) = lit "2024-03-09T07:05:00Z"
  /\ Host.clock Host.linux = Host.clock Host.linux.
Proof.
  split; [vm_compute; reflexivity|].
  apply (timestamp_injective (Host.clock Host.linux) (Host.clock Host.linux)
           linux_clock_valid linux_clock_valid).
  reflexivity.
Defined.

Lemma health_ok_witness :
  exists ts,
    health (Host.os_of Host.linux) tt
    = ([(lit "ok", AnyBool true); (lit "ts", AnyStr ts)], tt)
    /\ iso8601_utc_seconds ts = true.
Proof.
  apply (health_ok (Host.os_of Host.linux) tt). exact linux_clock_valid.
Defined.

End HandlerCases.

(** ** More on [_bytes_to_human] and the conversions *)

Module HumanCases.
Import PyStr PyFloat Human Spec HumanFacts.
Local Open Scope Z_scope.

(** An integer of at most 53 bits followed by zeros rounds to itself. *)
Lemma round53_exact q j : 0 <= q < 2 ^ 53 -> 0 <= j -> round53 (q * 2 ^ j) = q * 2 ^ j.
Proof.
  intros Hq Hj. assert (Hpj : 0 < 2 ^ j) by (apply Z.pow_pos_nonneg; lia).
  destruct (Z.eq_dec q 0) as [->|Hq0]; [reflexivity|].
  set (a := q * 2 ^ j). assert (Ha : 0 < a) by (unfold a; nia).
  destruct (bit_length_bounds a Ha) as [Hb HL].
  unfold round53. set (L := bit_length a) in *.
  destruct (L - 53 <=? 0) eqn:Ek; [reflexivity|].
  set (k := L - 53) in *.
  assert (Hkj : k <= j).
  { destruct (Z_lt_le_dec j k) as [Hlt|]; [|done]. exfalso.
    assert (2 ^ (53 + j) <= 2 ^ (L - 1)) by (apply Z.pow_le_mono_r; lia).
    rewrite pow2_split in * by lia. unfold a in Hb. nia. }
  assert (Hsplit : 2 ^ j = 2 ^ (j - k) * 2 ^ k)
    by (rewrite <- pow2_split by lia; f_equal; lia).
  unfold a. rewrite Hsplit, Z.mul_assoc.
  rewrite rne_div_exact by (apply Z.pow_pos_nonneg; lia). reflexivity.
Qed.

Lemma fixed1_whole s k :
  0 <= k -> fixed1 s (10 * k) = (if s then lit "-" else []) ++ decimal k ++ lit ".0".
Proof.
  intros Hk. unfold fixed1.
  replace (10 * k / 10) with k by (rewrite Z.mul_comm, Z.div_mul; lia).
  replace (10 * k mod 10) with 0 by (rewrite Z.mul_comm, Z.mod_mul; lia).
  reflexivity.
Qed.

Lemma tier_of_multiple k (i : nat) :
  1 <= k < 1024 -> (i <= 5)%nat -> tier_of (k * 1024 ^ Z.of_nat i) = i.
Proof.
  intros Hk Hi. unfold tier_of.
  destruct i as [|[|[|[|[|[|i]]]]]]; [..|lia];
    match goal with
    | |- context [1024 ^ Z.of_nat ?c] =>
        let v := eval vm_compute in (1024 ^ Z.of_nat c) in
        change (1024 ^ Z.of_nat c) with v
    end;
    change (1024 ^ 2) with 1048576; change (1024 ^ 3) with 1073741824;
    change (1024 ^ 4) with 1099511627776;
    change (1024 ^ 5) with 1125899906842624.
  - destruct (k * 1 <? 1024) eqn:E; [done|lia].
  - destruct (k * 1024 <? 1024) eqn:E1; [lia|].
    destruct (k * 1024 <? 1048576) eqn:E2; [done|lia].
  - destruct (k * 1048576 <? 1024) eqn:E1; [lia|].
    destruct (k * 1048576 <? 1048576) eqn:E2; [lia|].
    destruct (k * 1048576 <? 1073741824) eqn:E3; [done|lia].
  - destruct (k * 1073741824 <? 1024) eqn:E1; [lia|].
    destruct (k * 1073741824 <? 1048576) eqn:E2; [lia|].
    destruct (k * 1073741824 <? 1073741824) eqn:E3; [lia|].
    destruct (k * 1073741824 <? 1099511627776) eqn:E4; [done|lia].
  - destruct (k * 1099511627776 <? 1024) eqn:E1; [lia|].
    destruct (k * 1099511627776 <? 1048576) eqn:E2; [lia|].
    destruct (k * 1099511627776 <? 1073741824) eqn:E3; [lia|].
    destruct (k * 1099511627776 <? 1099511627776) eqn:E4; [lia|].
    destruct (k * 1099511627776 <? 1125899906842624) eqn:E5; [done|lia].
  - destruct (k * 1125899906842624 <? 1024) eqn:E1; [lia|].
    destruct (k * 1125899906842624 <? 1048576) eqn:E2; [lia|].
    destruct (k * 1125899906842624 <? 1073741824) eqn:E3; [lia|].
    destruct (k * 1125899906842624 <? 1099511627776) eqn:E4; [lia|].
    destruct (k * 1125899906842624 <? 1125899906842624) eqn:E5; [lia|done].
Qed.

(** X12. Whole multiples of a unit are printed exactly: for [1 <= k <
    1024] and a unit index [i] of the list, [k * 1024^i] reads [k.0]
    followed by the unit [i]; zero reads ["0.0B"]. *)
Theorem bytes_to_human_whole fuel k (i : nat) :
  (5 <= fuel)%nat -> 1 <= k < 1024 -> (i <= 5)%nat ->
  _bytes_to_human fuel (k * 1024 ^ Z.of_nat i)
  = Some (Return (decimal k ++ lit ".0" ++ unit_of i))
  /\ _bytes_to_human fuel 0 = Some (Return (lit "0.0B")).
Proof.
  intros Hfuel Hk Hi. split.
  - assert (Hp : 0 < 1024 ^ Z.of_nat i) by (apply Z.pow_pos_nonneg; lia).
    assert (Hlt : k * 1024 ^ Z.of_nat i < 2 ^ 60).
    { assert (1024 ^ Z.of_nat i <= 1024 ^ 5) by (apply Z.pow_le_mono_r; lia).
      change (2 ^ 60) with (1024 * 1024 ^ 5). nia. }
    assert (2 ^ 60 < float_limit) by reflexivity.
    destruct (scaled_positive fuel (k * 1024 ^ Z.of_nat i) Hfuel ltac:(nia))
      as (m & e & Hrun & Ht).
    unfold _bytes_to_human. rewrite Hrun, tier_of_multiple by done.
    rewrite tier_of_multiple in Ht by done.
    rewrite pow1024 in Ht at 1. rewrite round53_exact in Ht by lia.
    rewrite <- pow1024, Z.mul_assoc, rne_div_exact in Ht by done.
    cbn [format_1f]. rewrite Ht, fixed1_whole by lia.
    cbn [app]. now rewrite <- app_assoc.
  - rewrite bytes_to_human_fuel by done. vm_compute. reflexivity.
Qed.

(** X13. A negative integer is never scaled, whatever its size: it is
    printed whole, with its sign, in bytes (and without rounding down
    to [-2^53]). *)
Theorem bytes_to_human_negative fuel n :
  n < 0 -> - n < float_limit ->
  _bytes_to_human fuel n
  = Some (Return (lit "-" ++ decimal (round53 (- n)) ++ lit ".0B"))
  /\ (- n <= 2 ^ 53 -> round53 (- n) = - n).
Proof.
  intros Hn Hlim. split.
  - destruct (scaled_negative fuel n Hn Hlim) as (m & e & Hrun & Ht).
    unfold _bytes_to_human. rewrite Hrun. cbn [format_1f]. rewrite Ht.
    rewrite fixed1_whole by (apply round53_nonneg; lia).
    rewrite <- !app_assoc. reflexivity.
  - intros Hsmall. destruct (Z.eq_dec (- n) (2 ^ 53)) as [->|].
    + reflexivity.
    + apply round53_small. lia.
Qed.

(** X14. From 1024 on the number printed is at least 1.0, and below
    [1024^5] at most 1024.0: the unit is chosen before the rounding, so
    1024.0 itself is printed (1048575 reads ["1024.0KB"]). *)
Theorem bytes_to_human_range fuel n s :
  (5 <= fuel)%nat -> 1024 <= n ->
  _bytes_to_human fuel n = Some (Return s) ->
  exists t, read_human s = Some (t, unit_of (tier_of n))
            /\ 10 <= t /\ (n < 1024 ^ 5 -> t <= 10240).
Proof.
  intros Hfuel Hn Hs.
  destruct (bytes_to_human_inv fuel n s Hfuel Hs) as (Hlim & x & _ & Hv & Hread).
  exists (shown x). split; [done|].
  rewrite Hv, Z.abs_eq, Z.sgn_pos by lia. rewrite Z.mul_1_l.
  assert (Hcase : exists i : nat, tier_of n = i /\ (1 <= i <= 5)%nat
                    /\ 1024 ^ Z.of_nat i <= n
                    /\ (n < 1024 ^ 5 -> n < 1024 * 1024 ^ Z.of_nat i)).
  { unfold tier_of.
    assert (1024 ^ 2 = 1024 * 1024 ^ 1) by reflexivity.
    assert (1024 ^ 3 = 1024 * 1024 ^ 2) by reflexivity.
    assert (1024 ^ 4 = 1024 * 1024 ^ 3) by reflexivity.
    assert (1024 ^ 5 = 1024 * 1024 ^ 4) by reflexivity.
    destruct (n <? 1024) eqn:E1; [lia|].
    destruct (n <? 1024 ^ 2) eqn:E2;
      [exists 1%nat; change (1024 ^ Z.of_nat 1) with (1024 ^ 1); split; [done|lia]|].
    destruct (n <? 1024 ^ 3) eqn:E3;
      [exists 2%nat; change (1024 ^ Z.of_nat 2) with (1024 ^ 2); split; [done|lia]|].
    destruct (n <? 1024 ^ 4) eqn:E4;
      [exists 3%nat; change (1024 ^ Z.of_nat 3) with (1024 ^ 3); split; [done|lia]|].
    destruct (n <? 1024 ^ 5) eqn:E5;
      [exists 4%nat; change (1024 ^ Z.of_nat 4) with (1024 ^ 4); split; [done|lia]|].
    exists 5%nat. change (1024 ^ Z.of_nat 5) with (1024 ^ 5). split; [done|lia]. }
  destruct Hcase as (i & -> & Hi & Hlow & Hhigh).
  assert (Hp : 0 < 1024 ^ Z.of_nat i) by (apply Z.pow_pos_nonneg; lia).
  assert (Hpow : 1024 ^ Z.of_nat i <= 2 ^ 53).
  { assert (1024 ^ Z.of_nat i <= 1024 ^ 5) by (apply Z.pow_le_mono_r; lia).
    assert (1024 ^ 5 <= 2 ^ 53) by (vm_compute; discriminate). lia. }
  split.
  - apply (round53_ge n) in Hlow; [|lia|done].
    pose proof (rne_div_mono (10 * 1024 ^ Z.of_nat i) (10 * round53 n) _ Hp
                  ltac:(lia)) as Hmono.
    now rewrite rne_div_exact in Hmono.
  - intros Hn5. specialize (Hhigh Hn5).
    rewrite round53_small
      by (assert (1024 ^ 5 < 2 ^ 53) by reflexivity; lia).
    pose proof (rne_div_mono (10 * n) (10240 * 1024 ^ Z.of_nat i) _ Hp
                  ltac:(lia)) as Hmono.
    now rewrite rne_div_exact in Hmono.
Qed.

Lemma bytes_to_human_whole_witness :
  _bytes_to_human 5 (5 * 1024 ^ Z.of_nat 2) = Some (Return (lit "5.0MB")).
Proof.
  apply (bytes_to_human_whole 5 5 2); lia.
Defined.

Lemma bytes_to_human_negative_witness :
  _bytes_to_human 5 (-5000000) = Some (Return (lit "-5000000.0B")).
Proof.
  apply (bytes_to_human_negative 5 (-5000000)); [lia | reflexivity].
Defined.

Lemma bytes_to_human_range_witness :
  _bytes_to_human 5 1048575 = Some (Return (lit "1024.0KB"))
  /\ exists t, read_human (lit "1024.0KB") = Some (t, unit_of (tier_of 1048575))
               /\ 10 <= t /\ (1048575 < 1024 ^ 5 -> t <= 10240).
Proof.
  split; [vm_compute; reflexivity|].
  apply (bytes_to_human_range 5 1048575 (lit "1024.0KB"));
    [lia | lia | vm_compute; reflexivity].
Defined.

End HumanCases.
